(** * The coffee-shop drinks API (backend/src/api.py)

    A shallow embedding of the Flask controller: the five route handlers,
    the [requires_auth] decorator they are wrapped in, the error handlers
    registered on the application, and the part of the persistence layer the
    handlers call.  Python values travelling through the handlers are JSON
    values; exceptions are explicit; the drinks table is threaded through
    every handler as state. *)

From Stdlib Require Import Ascii String ZArith List Lia.
From stdpp Require Import gmap sorting pretty strings.

Open Scope Z_scope.

(** ** JSON values

    What [request.get_json()] hands to a handler and what [jsonify] takes
    back.  Python's [None] is [JNull].  A [dict] is kept as an association
    list in insertion order; lookups take the first binding of a key.
    Numbers are the integers: fractional JSON numbers are not covered. *)

#[warnings="-register-all"]
Inductive json : Type :=
| JNull
| JBool (b : bool)
| JNum (n : Z)
| JStr (s : string)
| JArr (items : list json)
| JObj (members : list (string * json)).

Definition pydict := list (string * json).

(** [key in d] *)
Fixpoint dict_has (k : string) (d : pydict) : bool :=
  match d with
  | [] => false
  | (k', _) :: d' => if String.eqb k k' then true else dict_has k d'
  end.

(** [d[key]], [None] standing for the [KeyError] *)
Fixpoint dict_lookup (k : string) (d : pydict) : option json :=
  match d with
  | [] => None
  | (k', v) :: d' => if String.eqb k k' then Some v else dict_lookup k d'
  end.

(** [d.get(key, dflt)] *)
Definition dict_get (k : string) (dflt : json) (d : pydict) : json :=
  match dict_lookup k d with
  | Some v => v
  | None => dflt
  end.

(** [d[key] = v]: an existing key keeps its position. *)
Fixpoint dict_set (k : string) (v : json) (d : pydict) : pydict :=
  match d with
  | [] => [(k, v)]
  | (k', v') :: d' =>
      if String.eqb k k' then (k', v) :: d' else (k', v') :: dict_set k v d'
  end.

(** ** [json.dumps]

    The default encoder: [", "] between items, [": "] after a key,
    [ensure_ascii] on.  Inside a string the quote and the backslash are
    escaped, the five named control characters get their short escape, and
    every other character outside [' '..'~'] is written as [\u00xx]. *)

Module Json.

Definition quote : ascii := "034"%char.
Definition backslash : ascii := "092"%char.

Definition str1 (c : ascii) : string := String c EmptyString.

Definition hex_digit (n : N) : ascii :=
  if (n <? 10)%N then ascii_of_N (48 + n) else ascii_of_N (87 + n).

Definition escape_char (c : ascii) : string :=
  let n := N_of_ascii c in
  if Ascii.eqb c quote then String backslash (str1 quote)
  else if Ascii.eqb c backslash then String backslash (str1 backslash)
  else if (n =? 8)%N then String backslash "b"
  else if (n =? 12)%N then String backslash "f"
  else if (n =? 10)%N then String backslash "n"
  else if (n =? 13)%N then String backslash "r"
  else if (n =? 9)%N then String backslash "t"
  else if ((n <? 32) || (126 <? n))%N then
    String backslash
      (String "u" (String "0" (String "0"
        (String (hex_digit (n / 16)) (str1 (hex_digit (n mod 16)))))))
  else str1 c.

Fixpoint escape (s : string) : string :=
  match s with
  | EmptyString => EmptyString
  | String c s' => escape_char c +:+ escape s'
  end.

Definition encode_str (s : string) : string :=
  String quote (escape s +:+ str1 quote).

Fixpoint dumps (j : json) : string :=
  match j with
  | JNull => "null"
  | JBool true => "true"
  | JBool false => "false"
  | JNum n => pretty n
  | JStr s => encode_str s
  | JArr items =>
      let fix go (l : list json) : string :=
        match l with
        | [] => EmptyString
        | [x] => dumps x
        | x :: l' => dumps x +:+ ", " +:+ go l'
        end in
      "[" +:+ go items +:+ "]"
  | JObj members =>
      let fix go (l : pydict) : string :=
        match l with
        | [] => EmptyString
        | [(k, v)] => encode_str k +:+ ": " +:+ dumps v
        | (k, v) :: l' => encode_str k +:+ ": " +:+ dumps v +:+ ", " +:+ go l'
        end in
      "{" +:+ go members +:+ "}"
  end.

(** ** [json.loads]

    A recursive-descent reader of the same grammar, on the characters of
    the text.  [None] stands for the [JSONDecodeError]. *)

Definition is_ws (c : ascii) : bool :=
  let n := N_of_ascii c in
  ((n =? 32) || (n =? 9) || (n =? 10) || (n =? 13))%N.

Fixpoint skip_ws (s : list ascii) : list ascii :=
  match s with
  | c :: s' => if is_ws c then skip_ws s' else s
  | [] => []
  end.

Definition is_digit (c : ascii) : bool :=
  let n := N_of_ascii c in ((48 <=? n) && (n <=? 57))%N.

Definition hex_value (c : ascii) : option N :=
  let n := N_of_ascii c in
  if ((48 <=? n) && (n <=? 57))%N then Some (n - 48)%N
  else if ((97 <=? n) && (n <=? 102))%N then Some (n - 87)%N
  else if ((65 <=? n) && (n <=? 70))%N then Some (n - 55)%N
  else None.

(** The escape after a backslash, for the one-character escapes. *)
Definition unescape (c : ascii) : option ascii :=
  let n := N_of_ascii c in
  if Ascii.eqb c quote then Some quote
  else if Ascii.eqb c backslash then Some backslash
  else if (n =? 47)%N then Some "/"%char
  else if (n =? 98)%N then Some (ascii_of_N 8)
  else if (n =? 102)%N then Some (ascii_of_N 12)
  else if (n =? 110)%N then Some (ascii_of_N 10)
  else if (n =? 114)%N then Some (ascii_of_N 13)
  else if (n =? 116)%N then Some (ascii_of_N 9)
  else None.

(** The characters of a string literal, after its opening quote. *)
Fixpoint read_chars (s : list ascii) : option (string * list ascii) :=
  match s with
  | [] => None
  | c :: s' =>
      if Ascii.eqb c quote then Some (EmptyString, s')
      else if Ascii.eqb c backslash then
        match s' with
        | [] => None
        | e :: s'' =>
            if Ascii.eqb e "u" then
              match s'' with
              | h1 :: h2 :: h3 :: h4 :: s5 =>
                  match hex_value h1, hex_value h2, hex_value h3, hex_value h4 with
                  | Some 0%N, Some 0%N, Some d3, Some d4 =>
                      match read_chars s5 with
                      | Some (str, r) =>
                          Some (String (ascii_of_N (16 * d3 + d4)) str, r)
                      | None => None
                      end
                  | _, _, _, _ => None
                  end
              | _ => None
              end
            else
              match unescape e, read_chars s'' with
              | Some c', Some (str, r) => Some (String c' str, r)
              | _, _ => None
              end
        end
      else if (N_of_ascii c <? 32)%N then None
      else
        match read_chars s' with
        | Some (str, r) => Some (String c str, r)
        | None => None
        end
  end.

(** The digits at the head of the text, most significant first. *)
Fixpoint read_digits (acc : Z) (s : list ascii) : Z * list ascii :=
  match s with
  | c :: s' =>
      if is_digit c
      then read_digits (10 * acc + Z.of_N (N_of_ascii c - 48)) s'
      else (acc, s)
  | [] => (acc, [])
  end.

(** An integer literal: no leading zero, no fraction, no exponent. *)
Definition read_int (s : list ascii) : option (Z * list ascii) :=
  match s with
  | c :: s' =>
      if is_digit c then
        let '(n, r) := read_digits 0 s in
        let leading_zero :=
          Ascii.eqb c "0" && match s' with d :: _ => is_digit d | [] => false end in
        let fractional :=
          match r with
          | d :: _ => Ascii.eqb d "." || Ascii.eqb d "e" || Ascii.eqb d "E"
          | [] => false
          end in
        if leading_zero || fractional then None else Some (n, r)
      else None
  | [] => None
  end.

Fixpoint strip_prefix (p s : list ascii) : option (list ascii) :=
  match p, s with
  | [], _ => Some s
  | a :: p', b :: s' => if Ascii.eqb a b then strip_prefix p' s' else None
  | _ :: _, [] => None
  end.

Definition literal (word : string) (v : json) (s : list ascii)
  : option (json * list ascii) :=
  match strip_prefix (list_ascii_of_string word) s with
  | Some r => Some (v, r)
  | None => None
  end.

Fixpoint read_value (fuel : nat) (s : list ascii) {struct fuel}
  : option (json * list ascii) :=
  match fuel with
  | O => None
  | S fuel' =>
      match skip_ws s with
      | [] => None
      | c :: r =>
          if Ascii.eqb c "n" then literal "null" JNull (c :: r)
          else if Ascii.eqb c "t" then literal "true" (JBool true) (c :: r)
          else if Ascii.eqb c "f" then literal "false" (JBool false) (c :: r)
          else if Ascii.eqb c quote then
            match read_chars r with
            | Some (str, r') => Some (JStr str, r')
            | None => None
            end
          else if Ascii.eqb c "[" then
            match skip_ws r with
            | c' :: r' =>
                if Ascii.eqb c' "]" then Some (JArr [], r')
                else
                  match read_items fuel' r with
                  | Some (items, r'') => Some (JArr items, r'')
                  | None => None
                  end
            | [] => None
            end
          else if Ascii.eqb c "{" then
            match skip_ws r with
            | c' :: r' =>
                if Ascii.eqb c' "}" then Some (JObj [], r')
                else
                  match read_members fuel' [] r with
                  | Some (members, r'') => Some (JObj members, r'')
                  | None => None
                  end
            | [] => None
            end
          else if Ascii.eqb c "-" then
            match read_int r with
            | Some (n, r') => Some (JNum (- n), r')
            | None => None
            end
          else
            match read_int (c :: r) with
            | Some (n, r') => Some (JNum n, r')
            | None => None
            end
      end
  end

with read_items (fuel : nat) (s : list ascii) {struct fuel}
  : option (list json * list ascii) :=
  match fuel with
  | O => None
  | S fuel' =>
      match read_value fuel' s with
      | Some (v, r) =>
          match skip_ws r with
          | c :: r' =>
              if Ascii.eqb c "," then
                match read_items fuel' r' with
                | Some (vs, r'') => Some (v :: vs, r'')
                | None => None
                end
              else if Ascii.eqb c "]" then Some ([v], r')
              else None
          | [] => None
          end
      | None => None
      end
  end

with read_members (fuel : nat) (acc : pydict) (s : list ascii) {struct fuel}
  : option (pydict * list ascii) :=
  match fuel with
  | O => None
  | S fuel' =>
      match skip_ws s with
      | c :: r =>
          if Ascii.eqb c quote then
            match read_chars r with
            | Some (k, r1) =>
                match skip_ws r1 with
                | c1 :: r2 =>
                    if Ascii.eqb c1 ":" then
                      match read_value fuel' r2 with
                      | Some (v, r3) =>
                          let acc' := dict_set k v acc in
                          match skip_ws r3 with
                          | c3 :: r4 =>
                              if Ascii.eqb c3 "," then read_members fuel' acc' r4
                              else if Ascii.eqb c3 "}" then Some (acc', r4)
                              else None
                          | [] => None
                          end
                      | None => None
                      end
                    else None
                | [] => None
                end
            | None => None
            end
          else None
      | [] => None
      end
  end.

Definition loads (text : string) : option json :=
  let s := list_ascii_of_string text in
  match read_value (2 * length s + 2) s with
  | Some (v, r) => match skip_ws r with [] => Some v | _ :: _ => None end
  | None => None
  end.

End Json.

Arguments Json.dumps : simpl never.
Arguments Json.loads : simpl never.

(** ** Exceptions

    [abort(code)] raises a Werkzeug [HTTPException]; the decorator raises
    [AuthError]; attribute, key and type errors, decoding errors and
    database errors are Python's own.  Every one of these classes derives
    from [Exception]. *)

Record AuthError : Type := {
  error_description : string;   (* [AuthError.error['description']] *)
  status_code : Z               (* [AuthError.status_code] *)
}.

Inductive exn : Type :=
| HTTPException (code : Z) (description : string)
| AuthErrorExn (e : AuthError)
| AttributeError
| TypeError
| KeyError
| JSONDecodeError
| SQLAlchemyError.

(** [isinstance(e, Exception)] *)
Definition isinstance_Exception (e : exn) : bool :=
  match e with
  | HTTPException _ _ => true
  | AuthErrorExn _ => true
  | AttributeError | TypeError | KeyError | JSONDecodeError | SQLAlchemyError => true
  end.

(** [isinstance(e, BaseException)] *)
Definition isinstance_BaseException (e : exn) : bool := true.

Inductive result (A : Type) : Type :=
| Return (a : A)
| Raise (e : exn).
Arguments Return {A} a.
Arguments Raise {A} e.

(** ** The drinks table *)

Record row : Type := { row_title : json; row_recipe : string }.

(** A loaded [Drink] object: the primary key with the two columns. *)
Record Drink : Type := { id : Z; title : json; recipe : string }.

Definition Drink_row (d : Drink) : row :=
  {| row_title := title d; row_recipe := recipe d |}.

Definition row_Drink (p : Z * row) : Drink :=
  {| id := p.1; title := row_title p.2; recipe := row_recipe p.2 |}.

(** ** Handlers run in a state-and-exception monad over the table *)

Definition M (A : Type) : Type := gmap Z row → result A * gmap Z row.

Definition ret {A} (a : A) : M A := λ t, (Return a, t).
Definition raise {A} (e : exn) : M A := λ t, (Raise e, t).
Definition bind {A B} (m : M A) (f : A → M B) : M B :=
  λ t, match m t with
       | (Return a, t') => f a t'
       | (Raise e, t') => (Raise e, t')
       end.
Definition lift {A} (r : result A) : M A := λ t, (r, t).

Notation "'let!' x ':=' m 'in' k" := (bind m (λ x, k))
  (at level 10, x name, m at level 100, k at level 200).
Notation "m ';;' k" := (bind m (λ _, k))
  (at level 100, k at level 200, right associativity).

(** [try: m except Exception: h] *)
Definition except_Exception {A} (m h : M A) : M A :=
  λ t, match m t with
       | (Return a, t') => (Return a, t')
       | (Raise e, t') => if isinstance_Exception e then h t' else (Raise e, t')
       end.

(** [try: m except BaseException: h] *)
Definition except_BaseException {A} (m h : M A) : M A :=
  λ t, match m t with
       | (Return a, t') => (Return a, t')
       | (Raise e, t') => if isinstance_BaseException e then h t' else (Raise e, t')
       end.

(** The list comprehension [[f(x) for x in l]], stopping at the first raise. *)
Fixpoint comprehension {A B} (f : A → result B) (l : list A) : result (list B) :=
  match l with
  | [] => Return []
  | x :: l' =>
      match f x with
      | Raise e => Raise e
      | Return y =>
          match comprehension f l' with
          | Raise e => Raise e
          | Return ys => Return (y :: ys)
          end
      end
  end.

(** ** The persistence layer (database/models.py) *)

Definition by_id : relation (Z * row) := λ a b, a.1 ≤ b.1.

Global Instance by_id_dec : RelDecision by_id.
Proof. intros a b. unfold by_id. apply _. Defined.

(** Modelled from the spec: [Drink.query.order_by(Drink.id).all()] of the
    missing database/models.py, the persistence contract
    [list_ordered_by_id() -> Drink[]]: every row, by ascending identifier. *)
Definition order_by_id (t : gmap Z row) : list Drink :=
  row_Drink <$> merge_sort by_id (map_to_list t).

Definition query_all : M (list Drink) := λ t, (Return (order_by_id t), t).

(** Modelled from the spec: [Drink.query.filter(Drink.id == i).one_or_none()],
    the persistence contract [get(id) -> Drink|none]. *)
Definition one_or_none (i : Z) : M (option Drink) :=
  λ t, (Return ((λ r, row_Drink (i, r)) <$> t !! i), t).

(** Modelled from the spec: the identifier the persistence layer assigns on
    creation, unique in the table: one past the largest identifier in use. *)
Definition next_id (t : gmap Z row) : Z :=
  1 + foldr Z.max 0 (map_to_list t).*1.

(** Modelled from the spec: [Drink.insert()], [Drink.update()] and
    [Drink.delete()] of the missing database/models.py.  Each is one
    transaction: it commits, or it raises and leaves the table as it was.
    Whether the store accepts the write is not decided by the controller;
    [commit_ok] is the store's verdict for the request. *)
Definition insert (commit_ok : bool) (new_title : json) (new_recipe : string)
  : M Drink :=
  λ t,
    if commit_ok then
      let d := {| id := next_id t; title := new_title; recipe := new_recipe |} in
      (Return d, <[id d := Drink_row d]> t)
    else (Raise SQLAlchemyError, t).

Definition update (commit_ok : bool) (d : Drink) : M unit :=
  λ t,
    if commit_ok then (Return tt, <[id d := Drink_row d]> t)
    else (Raise SQLAlchemyError, t).

Definition delete (commit_ok : bool) (d : Drink) : M unit :=
  λ t,
    if commit_ok then (Return tt, base.delete (id d) t)
    else (Raise SQLAlchemyError, t).

(** Modelled from the spec: [Drink.long()] of the missing database/models.py,
    the long representation [{id, title, recipe}] with the recipe
    deserialised from the stored text at read time. *)
Definition Drink_long (d : Drink) : result json :=
  match Json.loads (recipe d) with
  | None => Raise JSONDecodeError
  | Some r =>
      Return (JObj [("id"%string, JNum (id d)); ("title"%string, title d);
                    ("recipe"%string, r)])
  end.

(** One ingredient without its name: its [color] and its [parts]. *)
Definition short_ingredient (r : json) : result json :=
  match r with
  | JObj d =>
      match dict_lookup "color" d, dict_lookup "parts" d with
      | Some c, Some p => Return (JObj [("color"%string, c); ("parts"%string, p)])
      | _, _ => Raise KeyError
      end
  | _ => Raise TypeError
  end.

(** Modelled from the spec: [Drink.short()] of the missing database/models.py,
    the short representation [{id, title, recipe: [{color, parts}, ...]}]:
    the color and parts of every ingredient of the deserialised sequence.
    A stored text that is not a sequence of objects carrying both fields has
    no short form, and reading it raises. *)
Definition Drink_short (d : Drink) : result json :=
  match Json.loads (recipe d) with
  | None => Raise JSONDecodeError
  | Some (JArr items) =>
      match comprehension short_ingredient items with
      | Raise e => Raise e
      | Return short_recipe =>
          Return (JObj [("id"%string, JNum (id d)); ("title"%string, title d);
                        ("recipe"%string, JArr short_recipe)])
      end
  | Some _ => Raise TypeError
  end.

(** ** Requests and responses *)

Record response : Type := { body : json; status : Z }.

(** [jsonify(d), code] *)
Definition jsonify (d : pydict) (code : Z) : response :=
  {| body := JObj d; status := code |}.

(** The decoded claims of a verified token; the permissions claim may be
    missing. *)
Record payload : Type := { permissions : option (list string) }.

(** What the [Authorization] header of a request amounts to: it cannot be
    read as [Bearer <token>], or the verifier rejects the token, or the
    verifier returns the claims. *)
Inductive authorization : Type :=
| MalformedHeader
| InvalidToken
| Claims (p : payload).

Inductive auth_kind : Type := malformed_header | invalid_token | forbidden.

(** [body.get(key, None)] on whatever [request.get_json()] returned: only a
    [dict] has [get]. *)
Definition py_get (b : json) (k : string) : result json :=
  match b with
  | JObj d => Return (dict_get k JNull d)
  | _ => Raise AttributeError
  end.

(** [key in body], used on a [dict] (the [get] before it has raised
    otherwise). *)
Definition py_in (k : string) (b : json) : result bool :=
  match b with
  | JObj d => Return (dict_has k d)
  | _ => Raise TypeError
  end.

(** ** The application *)

Section App.

(** The description Werkzeug attaches to the exception [abort(code)]
    raises. *)
Variable werkzeug_description : Z → string.

(** The description auth.py puts in the [AuthError] of each kind, and the
    status it gives to a header it cannot read. *)
Variable auth_description : auth_kind → string.
Variable header_status : Z.

(** [abort(code)] *)
Definition abort {A} (code : Z) : M A :=
  raise (HTTPException code (werkzeug_description code)).

(** Modelled from the spec: the [AuthError] raised by the missing
    auth/auth.py for each kind of authorization failure; an invalid token is
    a 401 and a forbidden request a 403. *)
Definition auth_error (k : auth_kind) : AuthError :=
  {| error_description := auth_description k;
     status_code := match k with
                    | malformed_header => header_status
                    | invalid_token => 401
                    | forbidden => 403
                    end |}.

(** Modelled from the spec: the decorator [requires_auth(permission)] of the
    missing auth/auth.py.  It reads the bearer token, has it verified, and
    calls the handler with the decoded payload when the permission string is
    in the payload's permission set; it raises the forbidden kind when the
    permission is absent or the token carries no permissions claim. *)
Definition requires_auth {A} (permission : string) (f : payload → M A)
    (a : authorization) : M A :=
  match a with
  | MalformedHeader => raise (AuthErrorExn (auth_error malformed_header))
  | InvalidToken => raise (AuthErrorExn (auth_error invalid_token))
  | Claims p =>
      match permissions p with
      | None => raise (AuthErrorExn (auth_error forbidden))
      | Some granted =>
          if bool_decide (permission ∈ granted) then f p
          else raise (AuthErrorExn (auth_error forbidden))
      end
  end.

(** *** Controllers *)

Definition getDrinks : M response :=
  except_Exception
    (let! drinks := query_all in
     let! short_drinks := lift (comprehension Drink_short drinks) in
     (if (length short_drinks =? 0)%nat then abort 404 else ret tt) ;;
     ret (jsonify [("success"%string, JBool true);
                   ("drinks"%string, JArr short_drinks)] 200))
    (abort 500).

Definition getDrinksDetail (_ : payload) : M response :=
  except_Exception
    (let! drinks := query_all in
     let! long_drinks := lift (comprehension Drink_long drinks) in
     (if (length long_drinks =? 0)%nat then abort 404 else ret tt) ;;
     ret (jsonify [("success"%string, JBool true);
                   ("drinks"%string, JArr long_drinks)] 200))
    (abort 500).

Definition post_drinks (commit_ok : bool) (request_json : json) (_ : payload)
  : M response :=
  let body := request_json in
  except_BaseException
    (let! req_title := lift (py_get body "title") in
     let! recipe_value := lift (py_get body "recipe") in
     let req_recipe := Json.dumps recipe_value in
     let! drink := insert commit_ok req_title req_recipe in
     let! long_drink := lift (Drink_long drink) in
     ret (jsonify [("success"%string, JBool true);
                   ("drinks"%string, JArr [long_drink])] 200))
    (abort 422).

Definition edit_drink (commit_ok : bool) (request_json : json) (drink_id : Z)
    (_ : payload) : M response :=
  let! found := one_or_none drink_id in
  let body := request_json in
  let! req_title := lift (py_get body "title") in
  let! recipe_value := lift (py_get body "recipe") in
  let req_recipe := Json.dumps recipe_value in
  except_Exception
    (match found with
     | None => abort 404
     | Some drink =>
         let! has_title := lift (py_in "title" body) in
         let drink :=
           if has_title
           then {| id := id drink; title := req_title; recipe := recipe drink |}
           else drink in
         let! has_recipe := lift (py_in "recipe" body) in
         let drink :=
           if has_recipe
           then {| id := id drink; title := title drink; recipe := req_recipe |}
           else drink in
         update commit_ok drink ;;
         let! format_drink := lift (Drink_long drink) in
         ret (jsonify [("success"%string, JBool true);
                       ("drinks"%string, JArr [format_drink])] 200)
     end)
    (abort 422).

Definition deleteDrinks (commit_ok : bool) (drink_id : Z) (_ : payload)
  : M response :=
  let! found := one_or_none drink_id in
  except_Exception
    (match found with
     | None => abort 404
     | Some drink =>
         delete commit_ok drink ;;
         ret (jsonify [("success"%string, JBool true);
                       ("delete"%string, JNum drink_id)] 200)
     end)
    (abort 422).

(** *** Error handlers *)

Definition authentification_error (e : AuthError) : response :=
  jsonify [("success"%string, JBool false);
           ("error"%string, JNum (status_code e));
           ("message"%string, JStr (error_description e))] (status_code e).

Definition bad_request_error (description : string) : response :=
  jsonify [("success"%string, JBool false);
           ("error"%string, JNum 400);
           ("message"%string, JStr "Bad Request")] 400.

Definition unauthorized_error (description : string) : response :=
  jsonify [("success"%string, JBool false);
           ("error"%string, JNum 401);
           ("message"%string, JStr "Unauthorized");
           ("description"%string, JStr description)] 401.

Definition forbidden_error (description : string) : response :=
  jsonify [("success"%string, JBool false);
           ("error"%string, JNum 403);
           ("message"%string, JStr "Forbidden")] 403.

Definition not_found_error (description : string) : response :=
  jsonify [("success"%string, JBool false);
           ("error"%string, JNum 404);
           ("message"%string, JStr "resource not found")] 404.

(** The handler registered for 405; the source names it [not_found_error]
    a second time. *)
Definition not_found_error_405 (description : string) : response :=
  jsonify [("success"%string, JBool false);
           ("error"%string, JNum 405);
           ("message"%string, JStr "Method Not Allowed")] 405.

Definition not_processable_error (description : string) : response :=
  jsonify [("success"%string, JBool false);
           ("error"%string, JNum 422);
           ("message"%string, JStr "Not Processable")] 422.

Definition server_error (description : string) : response :=
  jsonify [("success"%string, JBool false);
           ("error"%string, JNum 500);
           ("message"%string, JStr "Server Error")] 500.

(** The registry the [@app.errorhandler(code)] decorations build. *)
Definition errorhandler (code : Z) : option (string → response) :=
  if code =? 400 then Some bad_request_error
  else if code =? 401 then Some unauthorized_error
  else if code =? 403 then Some forbidden_error
  else if code =? 404 then Some not_found_error
  else if code =? 405 then Some not_found_error_405
  else if code =? 422 then Some not_processable_error
  else if code =? 500 then Some server_error
  else None.

(** What Flask does with an exception that leaves a view: an [AuthError]
    goes to its own handler, an [HTTPException] to the handler registered
    for its code (Werkzeug renders it itself when there is none), and any
    other exception is an internal server error, code 500. *)
Definition handle_exception (e : exn) : response :=
  match e with
  | AuthErrorExn a => authentification_error a
  | HTTPException code description =>
      match errorhandler code with
      | Some handler => handler description
      | None => {| body := JStr description; status := code |}
      end
  | AttributeError | TypeError | KeyError | JSONDecodeError | SQLAlchemyError =>
      server_error (werkzeug_description 500)
  end.

(** *** Routing *)

Inductive route : Type :=
| GET_drinks
| GET_drinks_detail
| POST_drinks
| PATCH_drinks (drink_id : Z)
| DELETE_drinks (drink_id : Z).

Record request : Type := {
  target : route;
  bearer : authorization;
  get_json : json
}.

Definition dispatch_request (commit_ok : bool) (req : request) : M response :=
  match target req with
  | GET_drinks => getDrinks
  | GET_drinks_detail =>
      requires_auth "get:drinks-detail" getDrinksDetail (bearer req)
  | POST_drinks =>
      requires_auth "post:drinks" (post_drinks commit_ok (get_json req))
        (bearer req)
  | PATCH_drinks drink_id =>
      requires_auth "patch:drinks"
        (edit_drink commit_ok (get_json req) drink_id) (bearer req)
  | DELETE_drinks drink_id =>
      requires_auth "delete:drinks" (deleteDrinks commit_ok drink_id)
        (bearer req)
  end.

(** What Flask makes of the outcome of a view: its response, or the
    rendering of the exception that left it. *)
Definition finalize_request (outcome : result response * gmap Z row)
  : response * gmap Z row :=
  match outcome with
  | (Return r, t') => (r, t')
  | (Raise e, t') => (handle_exception e, t')
  end.

(** One request served against the table: the response and the table it
    leaves. *)
Definition full_dispatch (commit_ok : bool) (req : request) (t : gmap Z row)
  : response * gmap Z row :=
  finalize_request (dispatch_request commit_ok req t).

End App.

(** * Vocabulary of the properties *)

(** A verified token whose permission set is [granted]. *)
Definition token (granted : list string) : authorization :=
  Claims {| permissions := Some granted |}.

(** A request without a body. *)
Definition without_body (r : route) (a : authorization) : request :=
  {| target := r; bearer := a; get_json := JNull |}.

(** [key in body] for a body of any shape: only an object has keys. *)
Definition has_key (k : string) (b : json) : bool :=
  match b with
  | JObj d => dict_has k d
  | _ => false
  end.

(** The update semantics in the spec's words: a key present in the submitted
    object overwrites its field, an absent key leaves the field as stored. *)
Definition partial_update (d : pydict) (r : row) : row :=
  {| row_title :=
       if dict_has "title" d then dict_get "title" JNull d else row_title r;
     row_recipe :=
       if dict_has "recipe" d
       then Json.dumps (dict_get "recipe" JNull d) else row_recipe r |}.

(** The permission each protected route is decorated with. *)
Definition required_permission (r : route) : option string :=
  match r with
  | GET_drinks => None
  | GET_drinks_detail => Some "get:drinks-detail"%string
  | POST_drinks => Some "post:drinks"%string
  | PATCH_drinks _ => Some "patch:drinks"%string
  | DELETE_drinks _ => Some "delete:drinks"%string
  end.

(** The permission string is in the payload's permission set. *)
Definition grants (permission : string) (p : payload) : bool :=
  match permissions p with
  | None => false
  | Some granted => bool_decide (permission ∈ granted)
  end.

(** The body of the example request of the spec:
    [{title: Water, recipe: [{name: Water, color: blue, parts: 1}]}]. *)
Definition water_recipe : json :=
  JArr [JObj [("name"%string, JStr "Water"); ("color"%string, JStr "blue");
              ("parts"%string, JNum 1)]].

Definition water_body : json :=
  JObj [("title"%string, JStr "Water"); ("recipe"%string, water_recipe)].

(** The [id] field of an entry of a listing. *)
Definition entry_id (e : json) : option json :=
  match e with
  | JObj d => dict_lookup "id" d
  | _ => None
  end.

(** The mapping of the spec: each status code with its fixed message. *)
Definition fixed_messages : list (Z * string) :=
  [(400, "Bad Request"); (401, "Unauthorized"); (403, "Forbidden");
   (404, "resource not found"); (405, "Method Not Allowed");
   (422, "Not Processable"); (500, "Server Error")]%string.

(** The envelope of the spec for a status-code error: [success] false, the
    code echoed as [error], the fixed message, and for 401 the description
    of the error. *)
Definition envelope (code : Z) (message description : string) : response :=
  jsonify ([("success"%string, JBool false); ("error"%string, JNum code);
            ("message"%string, JStr message)]
           ++ if code =? 401 then [("description"%string, JStr description)]
              else []) code.

(** A 200, or the 500 or the 422 envelope. *)
Definition plain_answer (description : Z → string) (r : response) : Prop :=
  status r = 200
  ∨ r = server_error (description 500)
  ∨ r = not_processable_error (description 422).

(** An ingredient object of the data model: it has a name, a color and
    parts. *)
Definition is_ingredient (j : json) : bool :=
  match j with
  | JObj d => dict_has "name" d && dict_has "color" d && dict_has "parts" d
  | _ => false
  end.

(** The stored text deserialises to a sequence of ingredient objects. *)
Definition ingredient_sequence (text : string) : bool :=
  match Json.loads text with
  | Some (JArr items) => forallb is_ingredient items
  | _ => false
  end.

(** The fields of [a] are a strict subset of the fields of [b]: every field
    of [a] is a field of [b] with the same value, and [b] has the field
    [name], which [a] has not. *)
Definition short_item (a b : json) : Prop :=
  ∃ da db, a = JObj da ∧ b = JObj db
    ∧ (∀ k v, dict_lookup k da = Some v → dict_lookup k db = Some v)
    ∧ dict_has "name" da = false
    ∧ dict_has "name" db = true.

(** [s] is the short form of the long entry [l]: same id, same title, and
    the recipe items of [s] are those of [l] without their names. *)
Definition short_of (s l : json) : Prop :=
  ∃ i ttl ss ls,
    s = JObj [("id"%string, JNum i); ("title"%string, ttl);
              ("recipe"%string, JArr ss)]
    ∧ l = JObj [("id"%string, JNum i); ("title"%string, ttl);
                ("recipe"%string, JArr ls)]
    ∧ Forall2 short_item ss ls.

(** Descriptions for the concrete runs. *)
Definition sample_description (code : Z) : string :=
  "The request could not be served."%string.

Definition sample_auth_description (k : auth_kind) : string :=
  match k with
  | malformed_header => "Authorization header is malformed."
  | invalid_token => "Token is invalid."
  | forbidden => "Permission not found."
  end%string.

Definition run : bool → request → gmap Z row → response * gmap Z row :=
  full_dispatch sample_description sample_auth_description 401.

(** A table with the one drink of the example request. *)
Definition water_row : row :=
  {| row_title := JStr "Water"; row_recipe := Json.dumps water_recipe |}.

Definition water_table : gmap Z row := {[ 1 := water_row ]}.

(** ** The recipe text

    What relates [Json.dumps] to [Json.loads]: the text the handlers store
    and the value a read gets back from it. *)

(** The items of an array as [Json.dumps] writes them between the
    brackets. *)
Definition dumps_items : list json → string :=
  fix go (l : list json) : string :=
    match l with
    | [] => EmptyString
    | [x] => Json.dumps x
    | x :: l' => Json.dumps x +:+ ", " +:+ go l'
    end.

(** The members of an object as [Json.dumps] writes them between the
    braces. *)
Definition dumps_members : pydict → string :=
  fix go (l : pydict) : string :=
    match l with
    | [] => EmptyString
    | [(k, v)] => Json.encode_str k +:+ ": " +:+ Json.dumps v
    | (k, v) :: l' =>
        Json.encode_str k +:+ ": " +:+ Json.dumps v +:+ ", " +:+ go l'
    end.

(** What may follow an integer literal: nothing that continues the number. *)
Definition ends_number (rest : list ascii) : bool :=
  match rest with
  | [] => true
  | c :: _ =>
      negb (Json.is_digit c) && negb (Ascii.eqb c ".")
      && negb (Ascii.eqb c "e") && negb (Ascii.eqb c "E")
  end.

(** The first character of a value: no blank, no closing bracket. *)
Definition value_start (c : ascii) : bool :=
  negb (Json.is_ws c) && negb (Ascii.eqb c "]") && negb (Ascii.eqb c "}").

(** The objects of the value have distinct keys, at every depth: so are the
    values [request.get_json()] returns, a Python [dict] holding a key
    once. *)
Fixpoint wf_json (j : json) : bool :=
  match j with
  | JArr items => forallb wf_json items
  | JObj members =>
      bool_decide (NoDup members.*1)
      && forallb (λ kv : string * json, wf_json kv.2) members
  | _ => true
  end.

(** The value a Python [dict] built from the members in order holds: a
    repeated key keeps its first position and its last value. *)
Fixpoint canon (j : json) : json :=
  match j with
  | JArr items => JArr (map canon items)
  | JObj members =>
      JObj (foldl (λ a (kv : string * json), dict_set kv.1 (canon kv.2) a)
              [] members)
  | _ => j
  end.

(** The fuel that reading the text of a value takes. *)
Fixpoint json_size (j : json) : nat :=
  match j with
  | JArr items => S (list_sum (map (λ x, S (json_size x)) items))
  | JObj members =>
      S (list_sum (map (λ kv : string * json, S (json_size kv.2)) members))
  | _ => 1
  end.

Definition items_size (items : list json) : nat :=
  list_sum (map (λ x, S (json_size x)) items).

Definition members_size (members : pydict) : nat :=
  list_sum (map (λ kv : string * json, S (json_size kv.2)) members).

(** Reading the text of [x], with enough fuel and whatever follows, gives
    back the value and what follows. *)
Definition reads_back (x : json) : Prop :=
  ∀ fuel rest,
    (json_size x ≤ fuel)%nat → ends_number rest = true →
    Json.read_value fuel (list_ascii_of_string (Json.dumps x) ++ rest)
    = Some (canon x, rest).

(** ** Outcomes of the requests *)

(** [isinstance(body, dict)] *)
Definition is_object (b : json) : bool :=
  match b with
  | JObj _ => true
  | _ => false
  end.

(** The [success] field of the response body is [true]. *)
Definition succeeded (r : response) : bool :=
  match body r with
  | JObj d =>
      match dict_lookup "success" d with
      | Some (JBool true) => true
      | _ => false
      end
  | _ => false
  end.

(** The header carries a verified token that grants the permission. *)
Definition authorized (permission : string) (a : authorization) : bool :=
  match a with
  | Claims p => grants permission p
  | _ => false
  end.

(** The kind of the authorization failure of a header that is not
    [authorized]. *)
Definition failure_kind (a : authorization) : auth_kind :=
  match a with
  | MalformedHeader => malformed_header
  | InvalidToken => invalid_token
  | Claims _ => forbidden
  end.

(** The row [post_drinks] builds from an object body: the title, or null,
    and the serialised recipe, or the serialised null. *)
Definition posted_row (d : pydict) : row :=
  {| row_title := dict_get "title" JNull d;
     row_recipe := Json.dumps (dict_get "recipe" JNull d) |}.

(** Every stored recipe text is a JSON text. *)
Definition decodable (t : gmap Z row) : Prop :=
  ∀ i r, t !! i = Some r → is_Some (Json.loads (row_recipe r)).

(** The long form of a row whose recipe text decodes to [v]. *)
Definition long_entry (i : Z) (r : row) (v : json) : json :=
  JObj [("id"%string, JNum i); ("title"%string, row_title r);
        ("recipe"%string, v)].


(** The shape every response body has: an object with a boolean [success];
    with [success] true the status is 200 and there is no [error] field;
    with [success] false the [error] field echoes the status and the
    [message] is a string. *)
Definition enveloped (r : response) : Prop :=
  ∃ d, body r = JObj d
    ∧ ((dict_lookup "success" d = Some (JBool true) ∧ status r = 200
        ∧ dict_lookup "error" d = None)
       ∨ (dict_lookup "success" d = Some (JBool false)
          ∧ dict_lookup "error" d = Some (JNum (status r))
          ∧ ∃ m, dict_lookup "message" d = Some (JStr m))).

(** * Properties *)

(** ** The persistence layer *)

Global Instance by_id_total : Total by_id.
Proof. intros a b. unfold by_id. lia. Qed.

Global Instance by_id_trans : Transitive by_id.
Proof. intros a b c. unfold by_id. lia. Qed.

Lemma order_by_id_empty : order_by_id ∅ = [].
Proof. unfold order_by_id. by rewrite map_to_list_empty. Qed.

Lemma order_by_id_length (t : gmap Z row) : length (order_by_id t) = size t.
Proof.
  unfold order_by_id.
  rewrite length_fmap, (Permutation_length (merge_sort_Permutation _ _)).
  apply length_map_to_list.
Qed.

Lemma elem_of_order_by_id (t : gmap Z row) (d : Drink) :
  d ∈ order_by_id t ↔ t !! id d = Some (Drink_row d).
Proof.
  unfold order_by_id. rewrite list_elem_of_fmap. split.
  - intros [[i r] [-> Hin]].
    rewrite merge_sort_Permutation in Hin.
    apply elem_of_map_to_list in Hin. simpl. rewrite Hin. by destruct r.
  - intros Hd. exists (id d, Drink_row d). split; [by destruct d|].
    rewrite merge_sort_Permutation. by apply elem_of_map_to_list.
Qed.

Lemma order_by_id_ids (t : gmap Z row) :
  id <$> order_by_id t = (merge_sort by_id (map_to_list t)).*1.
Proof.
  unfold order_by_id. rewrite <- list_fmap_compose. by apply list_fmap_ext.
Qed.

Lemma elem_of_order_by_id_ids (t : gmap Z row) (i : Z) :
  i ∈ id <$> order_by_id t ↔ is_Some (t !! i).
Proof.
  rewrite order_by_id_ids, merge_sort_Permutation. split.
  - intros [[j r] [-> Hin]]%list_elem_of_fmap.
    apply elem_of_map_to_list in Hin. eauto.
  - intros [r Hr]. apply list_elem_of_fmap. exists (i, r).
    split; [done|]. by apply elem_of_map_to_list.
Qed.

Lemma strictly_ascending (l : list Z) :
  StronglySorted Z.le l → NoDup l → StronglySorted Z.lt l.
Proof.
  induction 1 as [|x l Hs IH Hx]; intros Hnd; constructor.
  - apply IH. by apply NoDup_cons in Hnd as [_ ?].
  - apply NoDup_cons in Hnd as [Hnotin _].
    apply Forall_forall. intros y Hy.
    pose proof (proj1 (Forall_forall _ _) Hx y Hy).
    assert (x ≠ y) by (intros ->; by apply Hnotin). lia.
Qed.

Lemma order_by_id_ascending (t : gmap Z row) :
  StronglySorted Z.lt (id <$> order_by_id t).
Proof.
  rewrite order_by_id_ids. apply strictly_ascending.
  - apply StronglySorted_fmap with (R1 := by_id); [by intros ??|].
    apply StronglySorted_merge_sort; apply _.
  - rewrite merge_sort_Permutation. apply NoDup_fst_map_to_list.
Qed.

Lemma foldr_max_bound (l : list Z) (x : Z) : x ∈ l → x ≤ foldr Z.max 0 l.
Proof.
  induction l as [|y l IH]; intros Hx.
  - by apply elem_of_nil in Hx.
  - apply elem_of_cons in Hx as [->|Hx]; simpl; [lia|].
    specialize (IH Hx). lia.
Qed.

Lemma next_id_fresh (t : gmap Z row) : t !! next_id t = None.
Proof.
  destruct (t !! next_id t) as [r|] eqn:Hr; [exfalso|done].
  assert (next_id t ∈ (map_to_list t).*1) as Hin.
  { apply list_elem_of_fmap. exists (next_id t, r).
    split; [done|]. by apply elem_of_map_to_list. }
  apply foldr_max_bound in Hin. unfold next_id in Hin at 1. lia.
Qed.

(** ** The controllers *)

Section Properties.

Variable werkzeug_description : Z → string.
Variable auth_description : auth_kind → string.
Variable header_status : Z.

Local Abbreviation serve :=
  (full_dispatch werkzeug_description auth_description header_status).
Local Abbreviation abort_with code :=
  (Raise (HTTPException code (werkzeug_description code))).

Lemma getDrinks_empty :
  getDrinks werkzeug_description ∅ = (abort_with 500, ∅).
Proof. reflexivity. Qed.

Lemma getDrinksDetail_empty (p : payload) :
  getDrinksDetail werkzeug_description p ∅ = (abort_with 500, ∅).
Proof. reflexivity. Qed.

Lemma edit_drink_missing (ok : bool) (d : pydict) (i : Z) (p : payload)
    (t : gmap Z row) :
  t !! i = None →
  edit_drink werkzeug_description ok (JObj d) i p t = (abort_with 422, t).
Proof.
  intros Hi. unfold edit_drink, bind, one_or_none, lift, py_get. simpl.
  unfold except_Exception. by rewrite Hi.
Qed.

Lemma edit_drink_not_a_dict (ok : bool) (b : json) (i : Z) (p : payload)
    (t : gmap Z row) :
  (∀ d, b ≠ JObj d) →
  edit_drink werkzeug_description ok b i p t = (Raise AttributeError, t).
Proof.
  intros Hb. unfold edit_drink, bind, one_or_none, lift, py_get.
  destruct b; try reflexivity. by destruct (Hb members).
Qed.

Lemma deleteDrinks_missing (ok : bool) (i : Z) (p : payload) (t : gmap Z row) :
  t !! i = None →
  deleteDrinks werkzeug_description ok i p t = (abort_with 422, t).
Proof.
  intros Hi. unfold deleteDrinks, bind, one_or_none, except_Exception.
  by rewrite Hi.
Qed.

Lemma requires_auth_granted {A} (permission : string) (f : payload → M A)
    (granted : list string) :
  permission ∈ granted →
  requires_auth auth_description header_status permission f (token granted)
  = f {| permissions := Some granted |}.
Proof. intros Hin. unfold requires_auth, token. simpl. by rewrite bool_decide_true. Qed.

(** C1: with no drink rows, GET /drinks and GET /drinks-detail (token
    carrying get:drinks-detail) do not answer 404: the [abort(404)] is raised
    inside the [try] whose [except Exception] turns it into [abort(500)],
    and both answer 500. *)
Theorem empty_catalog_lists_answer_500 (ok : bool) (a : authorization)
    (b : json) (granted : list string) :
  "get:drinks-detail"%string ∈ granted →
  serve ok {| target := GET_drinks; bearer := a; get_json := b |} ∅
  = (server_error (werkzeug_description 500), ∅)
  ∧ serve ok {| target := GET_drinks_detail; bearer := token granted;
                get_json := b |} ∅
    = (server_error (werkzeug_description 500), ∅).
Proof.
  intros Hg. split; [reflexivity|].
  unfold full_dispatch, dispatch_request. cbn [target bearer].
  by rewrite requires_auth_granted, getDrinksDetail_empty.
Qed.

(** C2: PATCH /drinks/{id} for an id that is not in the table, with a
    patch:drinks token, never answers 404.  With a JSON object as body the
    [abort(404)] is caught by the handler's own [except Exception] and the
    answer is 422; with any other body the [body.get] before the [try]
    raises and the answer is 500.  The table is left as it was. *)
Theorem patch_missing_id_never_answers_404 (ok : bool) (granted : list string)
    (b : json) (i : Z) (t : gmap Z row) :
  t !! i = None → "patch:drinks"%string ∈ granted →
  serve ok {| target := PATCH_drinks i; bearer := token granted;
              get_json := b |} t
  = (match b with
     | JObj _ => not_processable_error (werkzeug_description 422)
     | _ => server_error (werkzeug_description 500)
     end, t).
Proof.
  intros Hi Hg. unfold full_dispatch, dispatch_request.
  cbn [target bearer get_json]. rewrite requires_auth_granted by done.
  destruct b as [| | | | |d];
    try (by rewrite edit_drink_not_a_dict by (intros ?; discriminate)).
  by rewrite edit_drink_missing.
Qed.

(** C3: DELETE /drinks/{id} for an id that is not in the table, with a
    delete:drinks token, answers 422 and not 404, whatever the store would
    answer to a delete: none is attempted. *)
Theorem delete_missing_id_answers_422 (ok : bool) (granted : list string)
    (b : json) (i : Z) (t : gmap Z row) :
  t !! i = None → "delete:drinks"%string ∈ granted →
  serve ok {| target := DELETE_drinks i; bearer := token granted;
              get_json := b |} t
  = (not_processable_error (werkzeug_description 422), t).
Proof.
  intros Hi Hg. unfold full_dispatch, dispatch_request.
  cbn [target bearer get_json]. rewrite requires_auth_granted by done.
  by rewrite deleteDrinks_missing.
Qed.

(** *** Partial update *)

Lemma dict_lookup_has (k : string) (d : pydict) :
  dict_has k d = bool_decide (is_Some (dict_lookup k d)).
Proof.
  induction d as [|[k' v] d IH]; simpl.
  - reflexivity.
  - destruct (String.eqb k k'); [reflexivity|done].
Qed.

Lemma dict_lookup_Some (k : string) (v dflt : json) (d : pydict) :
  dict_lookup k d = Some v → dict_has k d = true ∧ dict_get k dflt d = v.
Proof.
  intros Hk. unfold dict_get. rewrite dict_lookup_has, Hk. split; [|done].
  apply bool_decide_true. eauto.
Qed.

Lemma edit_drink_existing (ok : bool) (d : pydict) (i : Z) (p : payload)
    (t : gmap Z row) (r : row) :
  t !! i = Some r →
  edit_drink werkzeug_description ok (JObj d) i p t
  = if ok then
      (match Drink_long (row_Drink (i, partial_update d r)) with
       | Return format_drink =>
           Return (jsonify [("success"%string, JBool true);
                            ("drinks"%string, JArr [format_drink])] 200)
       | Raise _ => abort_with 422
       end, <[i := partial_update d r]> t)
    else (abort_with 422, t).
Proof.
  intros Hi. unfold edit_drink, bind, one_or_none, lift, py_get, py_in.
  simpl. unfold except_Exception, bind, update. rewrite Hi. simpl.
  destruct ok; [|done].
  unfold partial_update, row_Drink, Drink_row. simpl.
  destruct (dict_has "title" d), (dict_has "recipe" d); simpl;
    match goal with |- context [Drink_long ?x] => destruct (Drink_long x) end;
    try reflexivity;
    match goal with |- context [isinstance_Exception ?e] => by destruct e end.
Qed.

(** What a PATCH request leaves in the table: either the table as it was,
    or, for an object body, the addressed row partially updated. *)
Lemma patch_table (ok : bool) (a : authorization) (b : json) (i : Z)
    (t : gmap Z row) (r : row) :
  t !! i = Some r →
  (serve ok {| target := PATCH_drinks i; bearer := a; get_json := b |} t).2 = t
  ∨ ∃ d, b = JObj d
         ∧ (serve ok {| target := PATCH_drinks i; bearer := a; get_json := b |} t).2
           = <[i := partial_update d r]> t.
Proof.
  intros Hi. unfold full_dispatch, dispatch_request, requires_auth. simpl.
  destruct a as [| |[[granted|]]]; simpl; try (by left).
  case_bool_decide; simpl; [|by left].
  destruct b as [| | | | |d];
    try (left; by rewrite edit_drink_not_a_dict by (intros ?; discriminate)).
  rewrite (edit_drink_existing _ _ _ _ _ _ Hi). destruct ok; [|by left].
  right. exists d. split; [done|]. simpl.
  by destruct (Drink_long _).
Qed.

Lemma patch_granted (d : pydict) (granted : list string) (i : Z)
    (t : gmap Z row) (r : row) :
  t !! i = Some r → "patch:drinks"%string ∈ granted →
  serve true {| target := PATCH_drinks i; bearer := token granted;
                get_json := JObj d |} t
  = (match Drink_long (row_Drink (i, partial_update d r)) with
     | Return format_drink =>
         jsonify [("success"%string, JBool true);
                  ("drinks"%string, JArr [format_drink])] 200
     | Raise _ => not_processable_error (werkzeug_description 422)
     end, <[i := partial_update d r]> t).
Proof.
  intros Hi Hg. unfold full_dispatch, dispatch_request.
  cbn [target bearer get_json]. rewrite requires_auth_granted by done.
  rewrite (edit_drink_existing _ _ _ _ _ _ Hi).
  by destruct (Drink_long _).
Qed.

(** C4: a PATCH request on an existing drink overwrites only the fields
    whose keys are present in the submitted object.  Whatever the token,
    the body and the store's verdict, a field whose key is absent keeps its
    stored value and every other row is untouched; an accepted request with
    an object body leaves exactly the partially updated row; and the body
    [{title: v}] changes the title to [v] and leaves the recipe text as it
    was stored. *)
Theorem patch_overwrites_present_keys_only (ok : bool) (a : authorization)
    (b : json) (i : Z) (t : gmap Z row) (r : row) :
  t !! i = Some r →
  let after (ok : bool) (a : authorization) (b : json) :=
    (serve ok {| target := PATCH_drinks i; bearer := a; get_json := b |} t).2 in
  (∃ r', after ok a b !! i = Some r'
         ∧ (has_key "title" b = false → row_title r' = row_title r)
         ∧ (has_key "recipe" b = false → row_recipe r' = row_recipe r))
  ∧ (∀ j, j ≠ i → after ok a b !! j = t !! j)
  ∧ (∀ granted d, "patch:drinks"%string ∈ granted →
       after true (token granted) (JObj d) = <[i := partial_update d r]> t)
  ∧ (∀ granted v, "patch:drinks"%string ∈ granted →
       after true (token granted) (JObj [("title"%string, v)]) !! i
       = Some {| row_title := v; row_recipe := row_recipe r |}).
Proof.
  intros Hi after. unfold after. repeat split.
  - destruct (patch_table ok a b i t r Hi) as [->|[d [-> ->]]].
    + exists r. by destruct r.
    + exists (partial_update d r). rewrite lookup_insert_eq.
      unfold partial_update. simpl. split; [done|].
      split; intros ->; done.
  - intros j Hj.
    destruct (patch_table ok a b i t r Hi) as [->|[d [-> ->]]]; [done|].
    by rewrite lookup_insert_ne.
  - intros granted d Hg. by rewrite (patch_granted d granted i t r Hi Hg).
  - intros granted v Hg. rewrite (patch_granted _ granted i t r Hi Hg).
    simpl. by rewrite lookup_insert_eq.
Qed.

(** C10: on an existing drink, an accepted PATCH whose body holds the key
    title or recipe with the value null overwrites the stored field with
    null, the recipe column becoming the text [null] and the response
    showing a null recipe; a key that is omitted leaves the stored field
    untouched. *)
Theorem patch_null_overwrites (granted : list string) (d : pydict) (i : Z)
    (t : gmap Z row) (r : row) :
  t !! i = Some r → "patch:drinks"%string ∈ granted →
  let answer :=
    serve true {| target := PATCH_drinks i; bearer := token granted;
                  get_json := JObj d |} t in
  ∃ r', answer.2 !! i = Some r'
    ∧ (dict_lookup "title" d = Some JNull → row_title r' = JNull)
    ∧ (dict_lookup "recipe" d = Some JNull →
         row_recipe r' = "null"%string
         ∧ answer.1 = jsonify [("success"%string, JBool true);
                               ("drinks"%string,
                                JArr [JObj [("id"%string, JNum i);
                                            ("title"%string, row_title r');
                                            ("recipe"%string, JNull)]])] 200)
    ∧ (dict_has "title" d = false → row_title r' = row_title r)
    ∧ (dict_has "recipe" d = false → row_recipe r' = row_recipe r).
Proof.
  intros Hi Hg answer. unfold answer.
  rewrite (patch_granted d granted i t r Hi Hg). simpl.
  exists (partial_update d r). rewrite lookup_insert_eq. split; [done|].
  unfold partial_update. simpl. split; [|split; [|split]].
  - intros Ht. by destruct (dict_lookup_Some _ _ JNull _ Ht) as [-> ->].
  - intros Hr. unfold Drink_long. simpl.
    by destruct (dict_lookup_Some _ _ JNull _ Hr) as [-> ->].
  - by intros ->.
  - by intros ->.
Qed.

(** *** Authorization failures *)

Lemma requires_auth_forbidden {A} (permission : string) (f : payload → M A)
    (p : payload) (t : gmap Z row) :
  grants permission p = false →
  requires_auth auth_description header_status permission f (Claims p) t
  = (Raise (AuthErrorExn (auth_error auth_description header_status forbidden)), t).
Proof.
  unfold grants, requires_auth. destruct (permissions p); [|done].
  by intros ->.
Qed.

(** C5: an [AuthError] is rendered with its own status code and its own
    description; and a request to a protected endpoint bearing a verified
    token whose permission set lacks the required permission (or that has no
    permissions claim) is answered 403, not 401, with the status and the
    description of the forbidden [AuthError] in the body, the table being
    left as it was. *)
Theorem authorization_failures_keep_their_status :
  (∀ e : AuthError,
     handle_exception werkzeug_description (AuthErrorExn e)
     = jsonify [("success"%string, JBool false);
                ("error"%string, JNum (status_code e));
                ("message"%string, JStr (error_description e))] (status_code e))
  ∧ (∀ (ok : bool) (req : request) (t : gmap Z row) (p : payload)
       (permission : string),
       required_permission (target req) = Some permission →
       bearer req = Claims p →
       grants permission p = false →
       serve ok req t
       = (jsonify [("success"%string, JBool false);
                   ("error"%string, JNum 403);
                   ("message"%string, JStr (auth_description forbidden))] 403, t)
       ∧ status (serve ok req t).1 ≠ 401).
Proof.
  split; [done|].
  intros ok [r a b] t p permission Hr Ha Hp. simpl in *. subst a.
  assert (serve ok {| target := r; bearer := Claims p; get_json := b |} t
          = (jsonify [("success"%string, JBool false);
                      ("error"%string, JNum 403);
                      ("message"%string, JStr (auth_description forbidden))] 403, t))
    as ->.
  { unfold full_dispatch, dispatch_request. cbn [target bearer get_json].
    destruct r; cbn in Hr; try discriminate; injection Hr as <-;
      by rewrite requires_auth_forbidden. }
  done.
Qed.

(** *** Creation *)

Lemma loads_water_recipe : Json.loads (Json.dumps water_recipe) = Some water_recipe.
Proof. vm_compute. reflexivity. Qed.

(** C7: POST /drinks with the body
    [{title: Water, recipe: [{name: Water, color: blue, parts: 1}]}] and a
    token carrying post:drinks.  When the store accepts the insert the answer
    is 200 with a drinks array of exactly one long-form entry, whose id is
    the identifier the store assigns, in use by no row before, and whose
    title is Water, and the row is stored; when the store rejects the
    insert the answer is 422 and the table is unchanged. *)
Theorem post_water (ok : bool) (granted : list string) (t : gmap Z row) :
  "post:drinks"%string ∈ granted →
  serve ok {| target := POST_drinks; bearer := token granted;
              get_json := water_body |} t
  = (if ok then
       (jsonify [("success"%string, JBool true);
                 ("drinks"%string,
                  JArr [JObj [("id"%string, JNum (next_id t));
                              ("title"%string, JStr "Water");
                              ("recipe"%string, water_recipe)]])] 200,
        <[next_id t := {| row_title := JStr "Water";
                          row_recipe := Json.dumps water_recipe |}]> t)
     else (not_processable_error (werkzeug_description 422), t))
  ∧ t !! next_id t = None.
Proof.
  intros Hg. split; [|apply next_id_fresh].
  unfold full_dispatch, dispatch_request. cbn [target bearer get_json].
  rewrite requires_auth_granted by done.
  unfold post_drinks, except_BaseException, bind, lift, insert.
  cbn [py_get water_body]. destruct ok; [|done].
  change (dict_get "recipe" JNull _) with water_recipe.
  unfold Drink_long. cbn [recipe]. rewrite loads_water_recipe. reflexivity.
Qed.

(** *** Listing *)

Lemma getDrinks_run (t : gmap Z row) :
  getDrinks werkzeug_description t
  = (match comprehension Drink_short (order_by_id t) with
     | Return short_drinks =>
         if (length short_drinks =? 0)%nat then abort_with 500
         else Return (jsonify [("success"%string, JBool true);
                               ("drinks"%string, JArr short_drinks)] 200)
     | Raise _ => abort_with 500
     end, t).
Proof.
  unfold getDrinks, except_Exception, bind, query_all, lift.
  destruct (comprehension Drink_short (order_by_id t)) as [l|e]; simpl.
  - by destruct (length l =? 0)%nat.
  - by destruct e.
Qed.

Lemma getDrinksDetail_run (p : payload) (t : gmap Z row) :
  getDrinksDetail werkzeug_description p t
  = (match comprehension Drink_long (order_by_id t) with
     | Return long_drinks =>
         if (length long_drinks =? 0)%nat then abort_with 500
         else Return (jsonify [("success"%string, JBool true);
                               ("drinks"%string, JArr long_drinks)] 200)
     | Raise _ => abort_with 500
     end, t).
Proof.
  unfold getDrinksDetail, except_Exception, bind, query_all, lift.
  destruct (comprehension Drink_long (order_by_id t)) as [l|e]; simpl.
  - by destruct (length l =? 0)%nat.
  - by destruct e.
Qed.

Lemma comprehension_Forall2 {A B} (f : A → result B) (l : list A) (l' : list B) :
  comprehension f l = Return l' → Forall2 (λ x y, f x = Return y) l l'.
Proof.
  revert l'. induction l as [|x l IH]; intros l' Hl; simpl in Hl.
  - injection Hl as <-. constructor.
  - destruct (f x) as [y|] eqn:Hx; [|discriminate].
    destruct (comprehension f l) as [ys|]; [|discriminate].
    injection Hl as <-. constructor; auto.
Qed.

Lemma Drink_short_id (d : Drink) (s : json) :
  Drink_short d = Return s → entry_id s = Some (JNum (id d)).
Proof.
  unfold Drink_short. destruct (Json.loads (recipe d)) as [[]|]; try discriminate.
  destruct (comprehension short_ingredient items); [|discriminate].
  by intros [= <-].
Qed.

(** The entries of a successful short listing are those of the rows of the
    table. *)
Lemma listed_ids (ok : bool) (a : authorization) (b : json) (t : gmap Z row)
    (entries : list json) :
  (serve ok {| target := GET_drinks; bearer := a; get_json := b |} t).1
  = jsonify [("success"%string, JBool true);
             ("drinks"%string, JArr entries)] 200 →
  Forall (λ e, ∃ i, entry_id e = Some (JNum i) ∧ is_Some (t !! i)) entries.
Proof.
  unfold full_dispatch, dispatch_request. cbn [target].
  rewrite getDrinks_run.
  destruct (comprehension Drink_short (order_by_id t)) as [l|e] eqn:Hl;
    [|discriminate].
  destruct (length l =? 0)%nat; [discriminate|].
  intros [= <-]. apply comprehension_Forall2 in Hl.
  eapply Forall2_Forall_r; [exact Hl|].
  apply Forall_forall. intros d Hin s Hd.
  exists (id d). split; [by apply Drink_short_id|].
  apply elem_of_order_by_id in Hin. eauto.
Qed.

(** C8: DELETE /drinks/{id} for an id present in the table, with a token
    carrying delete:drinks and a store that accepts the delete, answers 200
    with the body [{success: true, delete: id}]; the row is removed, the
    other rows are kept, and no entry of a later successful GET /drinks
    carries that id. *)
Theorem delete_existing (granted : list string) (i : Z) (t : gmap Z row)
    (r : row) :
  t !! i = Some r → "delete:drinks"%string ∈ granted →
  let answer := serve true (without_body (DELETE_drinks i) (token granted)) t in
  answer.1 = jsonify [("success"%string, JBool true);
                      ("delete"%string, JNum i)] 200
  ∧ answer.2 !! i = None
  ∧ (∀ j, j ≠ i → answer.2 !! j = t !! j)
  ∧ (∀ (ok : bool) (a : authorization) (b : json) (entries : list json),
       (serve ok {| target := GET_drinks; bearer := a; get_json := b |}
          answer.2).1
       = jsonify [("success"%string, JBool true);
                  ("drinks"%string, JArr entries)] 200 →
       Forall (λ e, entry_id e ≠ Some (JNum i)) entries).
Proof.
  intros Hi Hg answer.
  assert (answer = (jsonify [("success"%string, JBool true);
                             ("delete"%string, JNum i)] 200, base.delete i t))
    as ->.
  { unfold answer, full_dispatch, dispatch_request, without_body.
    cbn [target bearer get_json]. rewrite requires_auth_granted by done.
    unfold deleteDrinks, bind, one_or_none, except_Exception, delete.
    by rewrite Hi. }
  cbn [fst snd]. split; [done|]. split; [apply lookup_delete_eq|].
  split; [intros j Hj; by apply lookup_delete_ne|].
  intros ok a b entries Hget. apply listed_ids in Hget.
  eapply Forall_impl; [exact Hget|].
  intros e [j [-> [r' Hj]]] [= <-].
  by rewrite lookup_delete_eq in Hj.
Qed.

(** *** The error envelope *)

Local Abbreviation finalize := (finalize_request werkzeug_description).
Local Abbreviation plain := (plain_answer werkzeug_description).

Lemma requires_auth_answers (permission : string) (f : payload → M response)
    (a : authorization) (t : gmap Z row) :
  (∀ p, plain (finalize (f p t)).1) →
  plain
    (finalize (requires_auth auth_description header_status permission f a t)).1
  ∨ ∃ k, (finalize
            (requires_auth auth_description header_status permission f a t)).1
         = authentification_error (auth_error auth_description header_status k).
Proof.
  intros Hf. unfold requires_auth.
  destruct a as [| |p]; simpl; [by right; eexists..|].
  destruct (permissions p); [|by right; eexists].
  case_bool_decide; [by left|by right; eexists].
Qed.

(** Every response of the application is a 200, or the 500 or the 422
    envelope, or an [AuthError] rendered by its handler. *)
Lemma responses (ok : bool) (req : request) (t : gmap Z row) :
  plain (serve ok req t).1
  ∨ ∃ k, (serve ok req t).1
         = authentification_error (auth_error auth_description header_status k).
Proof.
  destruct req as [r a b]. unfold full_dispatch, dispatch_request.
  cbn [target bearer get_json]. unfold plain_answer.
  destruct r as [| | |i|i]; [left|apply requires_auth_answers; intros p..].
  - rewrite getDrinks_run.
    destruct (comprehension _ _) as [l|]; [|by right; left].
    destruct (length l =? 0)%nat; [by right; left|by left].
  - rewrite getDrinksDetail_run.
    destruct (comprehension _ _) as [l|]; [|by right; left].
    destruct (length l =? 0)%nat; [by right; left|by left].
  - unfold post_drinks, except_BaseException, bind, lift, insert.
    destruct (py_get b "title"); [|by right; right].
    destruct (py_get b "recipe"); [|by right; right].
    destruct ok; [|by right; right].
    destruct (Drink_long _); [by left|by right; right].
  - destruct b as [| | | | |d]; try (by right; left).
    destruct (t !! i) as [r|] eqn:Hi.
    + rewrite (edit_drink_existing _ _ _ _ _ _ Hi).
      destruct ok; [|by right; right].
      destruct (Drink_long _); [by left|by right; right].
    + rewrite edit_drink_missing by done. by right; right.
  - destruct (t !! i) as [r|] eqn:Hi.
    + unfold deleteDrinks, bind, one_or_none, except_Exception, delete.
      rewrite Hi. simpl. destruct ok; [by left|by right; right].
    + rewrite deleteDrinks_missing by done. by right; right.
Qed.

(** C9, as the code has it: every error raised by [abort] with one of the
    seven codes is rendered as the envelope of that code, with its fixed
    message (and the description for 401); every Python error that is not
    an HTTP error is rendered as the 500 envelope; an [AuthError] is
    rendered with [success] false, its own status code as [error] and its
    own description as [message], without a description field; and every
    response of the application that is not a 200 is the 500 envelope, the
    422 envelope or a rendered [AuthError]. *)
Theorem error_envelopes :
  Forall (λ cm, ∀ description,
            handle_exception werkzeug_description (HTTPException cm.1 description)
            = envelope cm.1 cm.2 description) fixed_messages
  ∧ Forall (λ e, handle_exception werkzeug_description e
                 = envelope 500 "Server Error" (werkzeug_description 500))
      [AttributeError; TypeError; KeyError; JSONDecodeError; SQLAlchemyError]
  ∧ (∀ e : AuthError,
       handle_exception werkzeug_description (AuthErrorExn e)
       = jsonify [("success"%string, JBool false);
                  ("error"%string, JNum (status_code e));
                  ("message"%string, JStr (error_description e))]
           (status_code e))
  ∧ (∀ (ok : bool) (req : request) (t : gmap Z row),
       status (serve ok req t).1 = 200
       ∨ (serve ok req t).1
         = envelope 500 "Server Error" (werkzeug_description 500)
       ∨ (serve ok req t).1
         = envelope 422 "Not Processable" (werkzeug_description 422)
       ∨ ∃ k, (serve ok req t).1
              = handle_exception werkzeug_description
                  (AuthErrorExn (auth_error auth_description header_status k))).
Proof.
  split; [|split; [|split; [done|]]].
  - repeat constructor.
  - repeat constructor.
  - intros ok req t. destruct (responses ok req t) as [[?|[?|?]]|?]; auto.
Qed.

(** *** Short and long forms *)

Lemma short_ingredient_item (j : json) :
  is_ingredient j = true → ∃ s, short_ingredient j = Return s ∧ short_item s j.
Proof.
  destruct j as [| | | | |d]; try discriminate. simpl.
  rewrite !andb_true_iff, !dict_lookup_has, !bool_decide_eq_true.
  intros [[Hn [c Hc]] [q Hq]]. rewrite Hc, Hq. eexists. split; [done|].
  exists [("color"%string, c); ("parts"%string, q)], d.
  repeat split; [|by rewrite dict_lookup_has, bool_decide_eq_true].
  intros k v. simpl.
  destruct (String.eqb_spec k "color") as [->|_]; [congruence|].
  destruct (String.eqb_spec k "parts") as [->|_]; [congruence|done].
Qed.

Lemma short_ingredients (items : list json) :
  forallb is_ingredient items = true →
  ∃ ss, comprehension short_ingredient items = Return ss
        ∧ Forall2 short_item ss items.
Proof.
  induction items as [|j items IH]; simpl.
  - exists []. by split; [|constructor].
  - rewrite andb_true_iff. intros [Hj Hitems].
    destruct (short_ingredient_item j Hj) as [s [-> Hs]].
    destruct (IH Hitems) as [ss [-> Hss]].
    exists (s :: ss). by split; [|constructor].
Qed.

Lemma Drink_forms (d : Drink) :
  ingredient_sequence (recipe d) = true →
  ∃ s l, Drink_short d = Return s ∧ Drink_long d = Return l ∧ short_of s l
         ∧ entry_id s = Some (JNum (id d)).
Proof.
  unfold ingredient_sequence, Drink_short, Drink_long.
  destruct (Json.loads (recipe d)) as [[| | | |items|]|]; try discriminate.
  intros Hitems. destruct (short_ingredients items Hitems) as [ss [-> Hss]].
  do 2 eexists. repeat split. by exists (id d), (title d), ss, items.
Qed.

Lemma listing_forms (ds : list Drink) :
  Forall (λ d, ingredient_sequence (recipe d) = true) ds →
  ∃ shorts longs,
    comprehension Drink_short ds = Return shorts
    ∧ comprehension Drink_long ds = Return longs
    ∧ Forall2 short_of shorts longs
    ∧ entry_id <$> shorts = (λ d, Some (JNum (id d))) <$> ds.
Proof.
  induction 1 as [|d ds Hd _ IH]; simpl.
  - exists [], []. by repeat split; try constructor.
  - destruct (Drink_forms d Hd) as [s [l [-> [-> [Hsl Hid]]]]].
    destruct IH as [shorts [longs [-> [-> [Hall Hids]]]]].
    exists (s :: shorts), (l :: longs).
    repeat split; [by constructor|]. by rewrite !fmap_cons, Hid, Hids.
Qed.

(** C6, as the code has it: for every table with at least one drink whose
    stored recipes all deserialise to sequences of ingredient objects,
    GET /drinks answers 200 with one short-form entry per stored row, in
    ascending id order; each entry is the short form of the entry
    GET /drinks-detail lists at the same place, its recipe items being
    those of the long form with a strict subset of their fields and no
    name. *)
Theorem short_listing (ok : bool) (a : authorization) (b : json)
    (t : gmap Z row) :
  t ≠ ∅ →
  (∀ i r, t !! i = Some r → ingredient_sequence (row_recipe r) = true) →
  ∃ shorts longs ids,
    serve ok {| target := GET_drinks; bearer := a; get_json := b |} t
    = (jsonify [("success"%string, JBool true);
                ("drinks"%string, JArr shorts)] 200, t)
    ∧ serve ok (without_body GET_drinks_detail (token ["get:drinks-detail"%string])) t
      = (jsonify [("success"%string, JBool true);
                  ("drinks"%string, JArr longs)] 200, t)
    ∧ length shorts = size t
    ∧ entry_id <$> shorts = (λ i, Some (JNum i)) <$> ids
    ∧ StronglySorted Z.lt ids
    ∧ (∀ i, i ∈ ids ↔ is_Some (t !! i))
    ∧ Forall2 short_of shorts longs.
Proof.
  intros Hne Hwf.
  destruct (listing_forms (order_by_id t)) as [shorts [longs [Hs [Hl [Hsl Hids]]]]].
  { apply Forall_forall. intros d Hd. apply elem_of_order_by_id in Hd.
    by apply (Hwf _ _ Hd). }
  assert (length shorts = size t) as Hlen.
  { rewrite <- order_by_id_length.
    rewrite <- (length_fmap entry_id), Hids. apply length_fmap. }
  assert (length longs = size t) as Hlen'.
  { by rewrite <- (Forall2_length _ _ _ Hsl). }
  assert (size t ≠ 0%nat) as Hsize by (by apply map_size_non_empty_iff).
  exists shorts, longs, (id <$> order_by_id t).
  split; [|split; [|split; [done|split; [|split; [|split; [|done]]]]]].
  - unfold full_dispatch, dispatch_request. cbn [target].
    rewrite getDrinks_run, Hs.
    destruct (Nat.eqb_spec (length shorts) 0); [lia|done].
  - unfold full_dispatch, dispatch_request, without_body. cbn [target bearer].
    rewrite requires_auth_granted by set_solver.
    rewrite getDrinksDetail_run, Hl.
    destruct (Nat.eqb_spec (length longs) 0); [lia|done].
  - by rewrite Hids, <- list_fmap_compose.
  - apply order_by_id_ascending.
  - apply elem_of_order_by_id_ids.
Qed.

End Properties.

(** * Concrete runs *)

Lemma water_table_well_formed (i : Z) (r : row) :
  water_table !! i = Some r → ingredient_sequence (row_recipe r) = true.
Proof.
  unfold water_table. intros [_ <-]%lookup_singleton_Some. reflexivity.
Defined.

(** GET /drinks and GET /drinks-detail on the empty table are answered
    500. *)
Lemma lists_on_empty_table :
  "get:drinks-detail"%string ∈ ["get:drinks-detail"%string]
  ∧ status (run true (without_body GET_drinks MalformedHeader) ∅).1 = 500
  ∧ status (run true (without_body GET_drinks_detail
                        (token ["get:drinks-detail"%string])) ∅).1 = 500.
Proof.
  split; [constructor|].
  destruct (empty_catalog_lists_answer_500 sample_description
              sample_auth_description 401 true MalformedHeader JNull
              ["get:drinks-detail"%string] ltac:(constructor)) as [H1 H2].
  unfold run, without_body. rewrite H1, H2. split; reflexivity.
Defined.

(** PATCH /drinks/1 on the empty table with the body [{}] is answered 422. *)
Lemma patch_on_empty_table :
  (∅ : gmap Z row) !! 1 = None
  ∧ "patch:drinks"%string ∈ ["patch:drinks"%string]
  ∧ status (run true {| target := PATCH_drinks 1;
                        bearer := token ["patch:drinks"%string];
                        get_json := JObj [] |} ∅).1 = 422.
Proof.
  assert ((∅ : gmap Z row) !! 1 = None) as Hi by reflexivity.
  split; [exact Hi|]. split; [constructor|].
  unfold run.
  rewrite (patch_missing_id_never_answers_404 sample_description
             sample_auth_description 401 true ["patch:drinks"%string]
             (JObj []) 1 ∅ Hi ltac:(constructor)).
  reflexivity.
Defined.

(** DELETE /drinks/1 on the empty table is answered 422. *)
Lemma delete_on_empty_table :
  (∅ : gmap Z row) !! 1 = None
  ∧ "delete:drinks"%string ∈ ["delete:drinks"%string]
  ∧ status (run true (without_body (DELETE_drinks 1) (token ["delete:drinks"%string]))
              ∅).1 = 422.
Proof.
  assert ((∅ : gmap Z row) !! 1 = None) as Hi by reflexivity.
  split; [exact Hi|]. split; [constructor|].
  unfold run, without_body.
  rewrite (delete_missing_id_answers_422 sample_description
             sample_auth_description 401 true ["delete:drinks"%string]
             JNull 1 ∅ Hi ltac:(constructor)).
  reflexivity.
Defined.

(** PATCH /drinks/1 with the body [{title: Sparkling Water}] changes the
    title and keeps the stored recipe text. *)
Lemma patch_title_only :
  water_table !! 1 = Some water_row
  ∧ (run true {| target := PATCH_drinks 1;
                 bearer := token ["patch:drinks"%string];
                 get_json := JObj [("title"%string, JStr "Sparkling Water")] |}
       water_table).2 !! 1
    = Some {| row_title := JStr "Sparkling Water";
              row_recipe := row_recipe water_row |}.
Proof.
  split; [reflexivity|].
  refine (proj2 (proj2 (proj2
    (patch_overwrites_present_keys_only sample_description
       sample_auth_description 401 true MalformedHeader JNull 1 water_table
       water_row eq_refl))) ["patch:drinks"%string] (JStr "Sparkling Water") _).
  constructor.
Defined.

(** PATCH /drinks/1 with the body [{recipe: null}] stores the text [null]
    and keeps the title. *)
Lemma patch_recipe_null :
  water_table !! 1 = Some water_row
  ∧ "patch:drinks"%string ∈ ["patch:drinks"%string]
  ∧ ∃ r', (run true {| target := PATCH_drinks 1;
                       bearer := token ["patch:drinks"%string];
                       get_json := JObj [("recipe"%string, JNull)] |}
             water_table).2 !! 1 = Some r'
          ∧ row_recipe r' = "null"%string
          ∧ row_title r' = JStr "Water".
Proof.
  split; [reflexivity|]. split; [constructor|].
  destruct (patch_null_overwrites sample_description sample_auth_description
              401 ["patch:drinks"%string] [("recipe"%string, JNull)] 1
              water_table water_row eq_refl ltac:(constructor))
    as [r' [Hr' [_ [Hrecipe [Htitle _]]]]].
  exists r'. split; [exact Hr'|]. split.
  - exact (proj1 (Hrecipe eq_refl)).
  - exact (Htitle eq_refl).
Defined.

(** GET /drinks-detail with a token that only grants get:drinks is
    answered 403. *)
Lemma detail_without_permission_is_403 :
  required_permission GET_drinks_detail = Some "get:drinks-detail"%string
  ∧ grants "get:drinks-detail" {| permissions := Some ["get:drinks"%string] |}
    = false
  ∧ status (run true (without_body GET_drinks_detail (token ["get:drinks"%string]))
              water_table).1 = 403.
Proof.
  split; [reflexivity|]. split; [reflexivity|].
  destruct (proj2 (authorization_failures_keep_their_status sample_description
                     sample_auth_description 401)
              true (without_body GET_drinks_detail (token ["get:drinks"%string]))
              water_table {| permissions := Some ["get:drinks"%string] |}
              "get:drinks-detail"%string eq_refl eq_refl eq_refl) as [H _].
  unfold run. rewrite H. reflexivity.
Defined.

(** POST /drinks with the example body on the empty table creates drink 1. *)
Lemma post_water_on_empty_table :
  "post:drinks"%string ∈ ["post:drinks"%string]
  ∧ run true {| target := POST_drinks; bearer := token ["post:drinks"%string];
                get_json := water_body |} ∅
    = (jsonify [("success"%string, JBool true);
                ("drinks"%string,
                 JArr [JObj [("id"%string, JNum 1);
                             ("title"%string, JStr "Water");
                             ("recipe"%string, water_recipe)]])] 200,
       water_table).
Proof.
  split; [constructor|].
  exact (proj1 (post_water sample_description sample_auth_description 401 true
                  ["post:drinks"%string] ∅ ltac:(constructor))).
Defined.

(** DELETE /drinks/1 on the table with drink 1 answers 200 and empties the
    table. *)
Lemma delete_water :
  water_table !! 1 = Some water_row
  ∧ "delete:drinks"%string ∈ ["delete:drinks"%string]
  ∧ (run true (without_body (DELETE_drinks 1) (token ["delete:drinks"%string]))
       water_table).1
    = jsonify [("success"%string, JBool true); ("delete"%string, JNum 1)] 200
  ∧ (run true (without_body (DELETE_drinks 1) (token ["delete:drinks"%string]))
       water_table).2 !! 1 = None.
Proof.
  split; [reflexivity|]. split; [constructor|].
  destruct (delete_existing sample_description sample_auth_description 401
              ["delete:drinks"%string] 1 water_table water_row eq_refl
              ltac:(constructor)) as [H1 [H2 _]].
  split; [exact H1|exact H2].
Defined.

(** GET /drinks on the table with drink 1 lists one entry. *)
Lemma list_water :
  water_table ≠ ∅
  ∧ ∃ shorts,
      run true (without_body GET_drinks MalformedHeader) water_table
      = (jsonify [("success"%string, JBool true);
                  ("drinks"%string, JArr shorts)] 200, water_table)
      ∧ length shorts = 1%nat.
Proof.
  assert (water_table ≠ ∅) as Hne.
  { intros H. apply (f_equal (lookup 1)) in H. discriminate H. }
  split; [exact Hne|].
  destruct (short_listing sample_description sample_auth_description 401 true
              MalformedHeader JNull water_table Hne water_table_well_formed)
    as [shorts [longs [ids [Hs [_ [Hlen _]]]]]].
  exists shorts. split; [exact Hs|]. rewrite Hlen. reflexivity.
Defined.

(** C6 as stated fails: POST /drinks with the body [{title: Water}] is
    answered 200 and stores the recipe text [null]; the table then has one
    drink, and GET /drinks is answered 500. *)
Lemma listing_after_post_without_recipe_is_500 :
  let created :=
    run true {| target := POST_drinks; bearer := token ["post:drinks"%string];
                get_json := JObj [("title"%string, JStr "Water")] |} ∅ in
  status created.1 = 200
  ∧ created.2 = {[ 1 := {| row_title := JStr "Water"; row_recipe := "null" |} ]}
  ∧ size created.2 = 1%nat
  ∧ status (run true (without_body GET_drinks MalformedHeader) created.2).1 = 500.
Proof. repeat split; vm_compute; reflexivity. Qed.

(** C9 as stated fails: the response to an invalid token has status 401, its
    message is the description of the [AuthError], not the fixed message of
    401, and it has no description field. *)
Lemma invalid_token_response_is_not_the_401_envelope :
  let r := (run true (without_body GET_drinks_detail InvalidToken) water_table).1 in
  status r = 401
  ∧ body r = JObj [("success"%string, JBool false); ("error"%string, JNum 401);
                   ("message"%string, JStr "Token is invalid.")]
  ∧ ∀ description, r ≠ envelope 401 "Unauthorized" description.
Proof. repeat split. intros description. discriminate. Qed.

(** * The recipe text read back

    [json.loads] after [json.dumps], as the drinks table sees them: the
    handlers store the text of the submitted recipe, and every read decodes
    it. *)

Section RoundTrip.

Import Json.

Local Abbreviation chars := list_ascii_of_string.

Lemma dumps_arr (items : list json) :
  dumps (JArr items) = "[" +:+ dumps_items items +:+ "]".
Proof. reflexivity. Qed.

Lemma dumps_obj (members : pydict) :
  dumps (JObj members) = "{" +:+ dumps_members members +:+ "}".
Proof. reflexivity. Qed.

Lemma chars_app (a b : string) : chars (a +:+ b) = chars a ++ chars b.
Proof. induction a as [|c a IH]; simpl; [done|]. by rewrite IH. Qed.

(** ** Strings: an escaped character is read back as the character *)

Lemma read_chars_escape_char (c : ascii) (tail : list ascii) (str : string) (r : list ascii) :
  read_chars tail = Some (str, r) →
  read_chars (chars (escape_char c) ++ tail) = Some (String c str, r).
Proof.
  intros H.
  destruct c as [[] [] [] [] [] [] [] []]; simpl; rewrite H; reflexivity.
Qed.

Lemma read_chars_escape (s : string) (rest : list ascii) :
  read_chars (chars (escape s) ++ quote :: rest) = Some (s, rest).
Proof.
  induction s as [|c s IH]; simpl.
  - reflexivity.
  - rewrite chars_app, <- app_assoc. by apply read_chars_escape_char.
Qed.

(** ** Integers: the decimal digits are read back as the number *)

Lemma pretty_N_char_digit (m : N) :
  (m < 10)%N →
  is_digit (pretty_N_char m) = true
  ∧ Z.of_N (N_of_ascii (pretty_N_char m) - 48) = Z.of_N m
  ∧ (m ≠ 0%N → Ascii.eqb (pretty_N_char m) "0" = false).
Proof.
  intros Hm.
  assert (m = 0 ∨ m = 1 ∨ m = 2 ∨ m = 3 ∨ m = 4 ∨ m = 5 ∨ m = 6 ∨ m = 7
          ∨ m = 8 ∨ m = 9)%N as Hcases by lia.
  repeat (destruct Hcases as [->|Hcases]); try subst m; done.
Qed.

Lemma read_digits_pretty_N_go (x : N) :
  ∀ s, ∃ k : Z, 0 ≤ k ∧ ∀ acc tail,
    read_digits acc (chars (pretty_N_go x s) ++ tail)
    = read_digits (acc * 10 ^ k + Z.of_N x) (chars s ++ tail).
Proof.
  induction (N.lt_wf_0 x) as [x _ IH]. intros s.
  destruct (decide (0 < x)%N) as [Hx|Hx].
  - rewrite pretty_N_go_step by done.
    destruct (IH (x `div` 10)%N) with (s := String (pretty_N_char (x `mod` 10)) s)
      as [k [Hk Hgo]].
    { apply N.div_lt; lia. }
    exists (k + 1). split; [lia|]. intros acc tail. rewrite Hgo. simpl.
    destruct (pretty_N_char_digit (x `mod` 10)%N) as [-> [-> _]].
    { apply N.mod_lt. lia. }
    f_equal. rewrite Z.pow_add_r by lia.
    pose proof (N.div_mod x 10 ltac:(lia)). lia.
  - assert (x = 0%N) as -> by lia. rewrite pretty_N_go_0.
    exists 0. split; [lia|]. intros acc tail. f_equal. lia.
Qed.

Lemma pretty_N_go_head (x : N) :
  (0 < x)%N → ∀ s, ∃ c r,
    chars (pretty_N_go x s) = c :: r ∧ is_digit c = true
    ∧ Ascii.eqb c "0" = false.
Proof.
  induction (N.lt_wf_0 x) as [x _ IH]. intros Hx s.
  rewrite pretty_N_go_step by done.
  destruct (N.eq_0_gt_0_cases (x `div` 10)) as [Hd|Hd].
  - rewrite Hd, pretty_N_go_0. simpl.
    do 2 eexists. split; [done|].
    assert (x < 10)%N as Hlt.
    { destruct (decide (x < 10)%N); [done|].
      assert (1 ≤ x `div` 10)%N by (apply N.div_le_lower_bound; lia).
      rewrite Hd in *. lia. }
    rewrite N.mod_small by done.
    destruct (pretty_N_char_digit x Hlt) as [-> [_ H0]]. split; [done|].
    apply H0. lia.
  - apply IH; [apply N.div_lt; lia|done].
Qed.

Lemma read_digits_end (acc : Z) (rest : list ascii) :
  ends_number rest = true → read_digits acc rest = (acc, rest).
Proof.
  destruct rest as [|c rest]; [done|]. simpl.
  destruct (is_digit c); [done|done].
Qed.

Lemma read_int_pretty_N (x : N) (rest : list ascii) :
  ends_number rest = true →
  read_int (chars (pretty x) ++ rest) = Some (Z.of_N x, rest).
Proof.
  intros Hrest. unfold pretty, pretty_N.
  destruct (decide (x = 0%N)) as [->|Hx].
  - simpl. rewrite read_digits_end by done.
    destruct rest as [|c rest]; [done|]. simpl in *.
    destruct (is_digit c); [done|]. simpl in *.
    destruct (Ascii.eqb c "."), (Ascii.eqb c "e"), (Ascii.eqb c "E"); done.
  - destruct (pretty_N_go_head x ltac:(lia) EmptyString) as [c [r [Hc [Hd H0]]]].
    destruct (read_digits_pretty_N_go x EmptyString) as [k [_ Hgo]].
    specialize (Hgo 0 rest). rewrite Z.mul_0_l in Hgo. simpl in Hgo.
    rewrite (read_digits_end _ rest Hrest) in Hgo.
    unfold read_int. rewrite Hc in *. simpl app in *. cbv beta iota.
    rewrite Hd, Hgo, H0. simpl.
    destruct rest as [|c' rest]; [done|]. simpl in *.
    destruct (is_digit c'); [done|]. simpl in *.
    destruct (Ascii.eqb c' "."), (Ascii.eqb c' "e"), (Ascii.eqb c' "E"); done.
Qed.

(** ** Values: induction on a value goes through its items and members *)

Lemma json_ind' (P : json → Prop) :
  P JNull → (∀ b, P (JBool b)) → (∀ n, P (JNum n)) → (∀ s, P (JStr s)) →
  (∀ items, Forall P items → P (JArr items)) →
  (∀ members, Forall (λ kv : string * json, P kv.2) members → P (JObj members)) →
  ∀ j, P j.
Proof.
  intros HN HB HZ HS HA HO. fix IH 1.
  intros [|b|n|s|items|members];
    [exact HN|apply HB|apply HZ|apply HS|apply HA|apply HO].
  - induction items as [|x items IHitems]; constructor; [apply IH|exact IHitems].
  - induction members as [|[k v] members IHm]; constructor;
      [apply IH|exact IHm].
Qed.

Lemma skip_ws_space (s : list ascii) : skip_ws (" "%char :: s) = skip_ws s.
Proof. reflexivity. Qed.

Lemma read_value_space (fuel : nat) (s : list ascii) :
  read_value fuel (" "%char :: s) = read_value fuel s.
Proof. destruct fuel; reflexivity. Qed.

Lemma read_items_space (fuel : nat) (s : list ascii) :
  read_items fuel (" "%char :: s) = read_items fuel s.
Proof. destruct fuel; [reflexivity|]. simpl. by rewrite read_value_space. Qed.

Lemma read_members_space (fuel : nat) (acc : pydict) (s : list ascii) :
  read_members fuel acc (" "%char :: s) = read_members fuel acc s.
Proof. destruct fuel; reflexivity. Qed.

Lemma digit_start (c : ascii) : is_digit c = true → value_start c = true.
Proof. destruct c as [[] [] [] [] [] [] [] []]; done. Qed.

Lemma dumps_head (j : json) :
  ∃ c r, chars (dumps j) = c :: r ∧ value_start c = true.
Proof.
  destruct j as [|[]|[|p|p]|s|items|members]; try (by do 2 eexists).
  - change (dumps (JNum (Z.pos p))) with (pretty (N.pos p)).
    unfold pretty, pretty_N. destruct (decide _) as [|_]; [done|].
    destruct (pretty_N_go_head (N.pos p) ltac:(lia) EmptyString)
      as [c [r [-> [Hd _]]]].
    do 2 eexists. split; [done|]. by apply digit_start.
Qed.

Lemma read_value_digit (fuel : nat) (c : ascii) (r : list ascii) :
  is_digit c = true →
  read_value (S fuel) (c :: r)
  = match read_int (c :: r) with
    | Some (n, r') => Some (JNum n, r')
    | None => None
    end.
Proof. destruct c as [[] [] [] [] [] [] [] []]; done. Qed.

Lemma read_value_num (fuel : nat) (n : Z) (rest : list ascii) :
  ends_number rest = true →
  read_value (S fuel) (chars (dumps (JNum n)) ++ rest) = Some (JNum n, rest).
Proof.
  intros Hrest. destruct n as [|p|p].
  - change (chars (dumps (JNum 0)) ++ rest) with ("0"%char :: rest).
    rewrite read_value_digit by done.
    change ("0"%char :: rest) with (chars (pretty 0%N) ++ rest).
    by rewrite read_int_pretty_N.
  - change (dumps (JNum (Z.pos p))) with (pretty (N.pos p)).
    destruct (pretty_N_go_head (N.pos p) ltac:(lia) EmptyString)
      as [c [r [Hc [Hd _]]]].
    assert (chars (pretty (N.pos p)) = c :: r) as Hc'.
    { unfold pretty, pretty_N. by destruct (decide _). }
    pose proof (read_int_pretty_N (N.pos p) rest Hrest) as Hint.
    rewrite Hc' in *. simpl app in *.
    by rewrite read_value_digit, Hint.
  - change (dumps (JNum (Z.neg p))) with ("-" +:+ pretty (N.pos p)).
    rewrite chars_app, <- app_assoc.
    change (read_value (S fuel) (chars "-" ++ chars (pretty (N.pos p)) ++ rest))
      with (match read_int (chars (pretty (N.pos p)) ++ rest) with
            | Some (n, r') => Some (JNum (- n), r')
            | None => None
            end).
    by rewrite read_int_pretty_N.
Qed.

Lemma skip_ws_start (c : ascii) (r : list ascii) :
  value_start c = true → skip_ws (c :: r) = c :: r.
Proof.
  unfold value_start. simpl. destruct (is_ws c); [done|done].
Qed.

Lemma start_not_closing (c : ascii) :
  value_start c = true → Ascii.eqb c "]" = false ∧ Ascii.eqb c "}" = false.
Proof.
  unfold value_start. destruct (is_ws c), (Ascii.eqb c "]"), (Ascii.eqb c "}"); done.
Qed.

Lemma read_value_arr (fuel : nat) (r : list ascii) :
  read_value (S fuel) ("["%char :: r)
  = match skip_ws r with
    | c' :: r' =>
        if Ascii.eqb c' "]" then Some (JArr [], r')
        else match read_items fuel r with
             | Some (items, r'') => Some (JArr items, r'')
             | None => None
             end
    | [] => None
    end.
Proof. reflexivity. Qed.

Lemma read_value_obj (fuel : nat) (r : list ascii) :
  read_value (S fuel) ("{"%char :: r)
  = match skip_ws r with
    | c' :: r' =>
        if Ascii.eqb c' "}" then Some (JObj [], r')
        else match read_members fuel [] r with
             | Some (members, r'') => Some (JObj members, r'')
             | None => None
             end
    | [] => None
    end.
Proof. reflexivity. Qed.

Lemma read_value_str (fuel : nat) (r : list ascii) :
  read_value (S fuel) (quote :: r)
  = match read_chars r with
    | Some (str, r') => Some (JStr str, r')
    | None => None
    end.
Proof. reflexivity. Qed.

Lemma read_items_S (fuel : nat) (s : list ascii) :
  read_items (S fuel) s
  = match read_value fuel s with
    | Some (v, r) =>
        match skip_ws r with
        | c :: r' =>
            if Ascii.eqb c "," then
              match read_items fuel r' with
              | Some (vs, r'') => Some (v :: vs, r'')
              | None => None
              end
            else if Ascii.eqb c "]" then Some ([v], r')
            else None
        | [] => None
        end
    | None => None
    end.
Proof. reflexivity. Qed.

Lemma read_members_S (fuel : nat) (acc : pydict) (r : list ascii) :
  read_members (S fuel) acc (quote :: r)
  = match read_chars r with
    | Some (k, r1) =>
        match skip_ws r1 with
        | c1 :: r2 =>
            if Ascii.eqb c1 ":" then
              match read_value fuel r2 with
              | Some (v, r3) =>
                  let acc' := dict_set k v acc in
                  match skip_ws r3 with
                  | c3 :: r4 =>
                      if Ascii.eqb c3 "," then read_members fuel acc' r4
                      else if Ascii.eqb c3 "}" then Some (acc', r4)
                      else None
                  | [] => None
                  end
              | None => None
              end
            else None
        | [] => None
        end
    | None => None
    end.
Proof. reflexivity. Qed.

Lemma read_items_dumps (items : list json) :
  items ≠ [] → Forall reads_back items →
  ∀ fuel rest, (items_size items ≤ fuel)%nat →
    read_items fuel (chars (dumps_items items) ++ "]"%char :: rest)
    = Some (map canon items, rest).
Proof.
  intros Hne Hall. induction Hall as [|x items Hx Hitems IH]; [done|].
  intros fuel rest Hfuel. clear Hne.
  unfold items_size in Hfuel. simpl in Hfuel.
  destruct fuel as [|fuel]; [lia|]. rewrite read_items_S.
  destruct items as [|y items]; simpl in Hfuel.
  - change (dumps_items [x]) with (dumps x).
    rewrite Hx by (done || lia). reflexivity.
  - change (dumps_items (x :: y :: items))
      with (dumps x +:+ ", " +:+ dumps_items (y :: items)).
    rewrite !chars_app, <- !app_assoc.
    rewrite Hx by (done || lia).
    change (chars ", " ++ ?t) with (","%char :: " "%char :: t).
    cbn [skip_ws is_ws]. simpl.
    rewrite read_items_space, IH; [done|done|].
    unfold items_size. simpl. lia.
Qed.

Lemma chars_encode_str (k : string) (tail : list ascii) :
  chars (encode_str k) ++ tail = quote :: chars (escape k) ++ quote :: tail.
Proof.
  unfold encode_str. simpl. rewrite chars_app, <- app_assoc. reflexivity.
Qed.

Lemma read_members_dumps (members : pydict) :
  members ≠ [] → Forall (λ kv : string * json, reads_back kv.2) members →
  ∀ fuel acc rest, (members_size members ≤ fuel)%nat →
    read_members fuel acc (chars (dumps_members members) ++ "}"%char :: rest)
    = Some (foldl (λ a (kv : string * json), dict_set kv.1 (canon kv.2) a)
              acc members, rest).
Proof.
  intros Hne Hall. induction Hall as [|[k v] members Hv Hmembers IH]; [done|].
  intros fuel acc rest Hfuel. clear Hne. simpl in Hv.
  unfold members_size in Hfuel. simpl in Hfuel.
  destruct fuel as [|fuel]; [lia|].
  destruct members as [|[k' v'] members]; simpl in Hfuel.
  - change (dumps_members [(k, v)]) with (encode_str k +:+ ": " +:+ dumps v).
    rewrite !chars_app, <- !app_assoc, chars_encode_str.
    rewrite read_members_S, read_chars_escape.
    change (chars ": " ++ ?t) with (":"%char :: " "%char :: t).
    cbn [skip_ws is_ws]. simpl.
    rewrite read_value_space, Hv by (done || lia). reflexivity.
  - change (dumps_members ((k, v) :: (k', v') :: members))
      with (encode_str k +:+ ": " +:+ dumps v +:+ ", "
            +:+ dumps_members ((k', v') :: members)).
    rewrite !chars_app, <- !app_assoc, chars_encode_str.
    rewrite read_members_S, read_chars_escape.
    change (chars ": " ++ ?t) with (":"%char :: " "%char :: t).
    cbn [skip_ws is_ws]. simpl.
    rewrite read_value_space, Hv by (done || lia).
    change (chars ", " ++ ?t) with (","%char :: " "%char :: t).
    cbn [skip_ws is_ws]. simpl.
    rewrite read_members_space, IH; [done|done|].
    unfold members_size. simpl. lia.
Qed.

Lemma dict_set_fresh (k : string) (v : json) (acc : pydict) :
  k ∉ acc.*1 → dict_set k v acc = acc ++ [(k, v)].
Proof.
  induction acc as [|[k' v'] acc IH]; simpl; [done|].
  rewrite not_elem_of_cons. intros [Hne Hnotin].
  destruct (String.eqb_spec k k'); [done|]. by rewrite IH.
Qed.

Lemma foldl_dict_set (members acc : pydict) :
  NoDup (acc.*1 ++ members.*1) →
  foldl (λ a kv, dict_set kv.1 kv.2 a) acc members = acc ++ members.
Proof.
  revert acc. induction members as [|[k v] members IH]; intros acc Hnd; simpl.
  - by rewrite app_nil_r.
  - simpl in Hnd. rewrite dict_set_fresh.
    + rewrite IH; [by rewrite <- app_assoc|].
      rewrite fmap_app. simpl. by rewrite <- app_assoc.
    + apply NoDup_app in Hnd as [_ [Hdisj _]]. intros Hin.
      apply (Hdisj k Hin). by left.
Qed.

Lemma read_value_dumps (j : json) : reads_back j.
Proof.
  induction j as [|b|n|s|items IH|members IH] using json_ind';
    intros fuel rest Hfuel Hrest;
    (destruct fuel as [|fuel]; [simpl in Hfuel; lia|]).
  - reflexivity.
  - by destruct b.
  - by apply read_value_num.
  - change (dumps (JStr s)) with (encode_str s).
    by rewrite chars_encode_str, read_value_str, read_chars_escape.
  - rewrite dumps_arr, !chars_app, <- !app_assoc.
    change (chars "[" ++ ?t) with ("["%char :: t).
    change (chars "]" ++ ?t) with ("]"%char :: t).
    rewrite read_value_arr.
    destruct items as [|x items]; [reflexivity|].
    destruct (dumps_head x) as [c [r [Hc Hstart]]].
    assert (∃ r', chars (dumps_items (x :: items)) = c :: r') as [r' Hr'].
    { destruct items as [|y items].
      - by exists r.
      - change (dumps_items (x :: y :: items))
          with (dumps x +:+ ", " +:+ dumps_items (y :: items)).
        rewrite chars_app, Hc. by eexists. }
    pose proof (read_items_dumps (x :: items) ltac:(done) IH fuel rest) as Hitems.
    rewrite Hr' in *. simpl app in *.
    rewrite skip_ws_start by done.
    destruct (start_not_closing c Hstart) as [-> _].
    rewrite Hitems; [done|]. simpl in Hfuel. unfold items_size. simpl. lia.
  - rewrite dumps_obj, !chars_app, <- !app_assoc.
    change (chars "{" ++ ?t) with ("{"%char :: t).
    change (chars "}" ++ ?t) with ("}"%char :: t).
    rewrite read_value_obj.
    destruct members as [|[k v] members]; [reflexivity|].
    assert (∃ r', chars (dumps_members ((k, v) :: members)) = quote :: r')
      as [r' Hr'].
    { destruct members as [|[k' v'] members].
      - change (dumps_members [(k, v)]) with (encode_str k +:+ ": " +:+ dumps v).
        rewrite chars_app. by eexists.
      - change (dumps_members ((k, v) :: (k', v') :: members))
          with (encode_str k +:+ ": " +:+ dumps v +:+ ", "
                +:+ dumps_members ((k', v') :: members)).
        rewrite chars_app. by eexists. }
    pose proof (read_members_dumps ((k, v) :: members) ltac:(done) IH
                  fuel [] rest) as Hmembers.
    rewrite Hr' in *. simpl app in *.
    change (skip_ws (quote :: ?t)) with (quote :: t).
    change (Ascii.eqb quote "}") with false. cbv iota.
    rewrite Hmembers; [done|].
    simpl in Hfuel. unfold members_size. simpl. lia.
Qed.

Lemma canon_wf (j : json) : wf_json j = true → canon j = j.
Proof.
  induction j as [|b|n|s|items IH|members IH] using json_ind'; try done.
  - simpl. intros Hwf. f_equal.
    induction IH as [|x items Hx _ IHitems]; [done|].
    simpl in *. apply andb_true_iff in Hwf as [Hwx Hwf].
    by rewrite Hx, IHitems.
  - simpl. intros [Hnd Hwf]%andb_true_iff.
    apply bool_decide_eq_true in Hnd. f_equal.
    transitivity (foldl (λ a (kv : string * json), dict_set kv.1 kv.2 a)
                    [] members); [|by rewrite foldl_dict_set].
    clear Hnd. generalize (@nil (string * json)).
    induction IH as [|[k v] members Hv _ IHm]; intros acc; [done|].
    simpl in *. apply andb_true_iff in Hwf as [Hwv Hwf].
    rewrite (Hv Hwv). by apply IHm.
Qed.

(** ** The fuel [loads] gives is enough *)

Lemma items_length (items : list json) :
  Forall (λ x, (json_size x ≤ length (chars (dumps x)))%nat) items →
  (items_size items ≤ 1 + length (chars (dumps_items items)))%nat.
Proof.
  induction 1 as [|x items Hx _ IH]; [unfold items_size; simpl; lia|].
  destruct items as [|y items].
  - change (dumps_items [x]) with (dumps x). unfold items_size. simpl. lia.
  - change (dumps_items (x :: y :: items))
      with (dumps x +:+ ", " +:+ dumps_items (y :: items)).
    rewrite !chars_app, !length_app.
    unfold items_size in *. simpl in *. lia.
Qed.

Lemma members_length (members : pydict) :
  Forall (λ kv : string * json,
            (json_size kv.2 ≤ length (chars (dumps kv.2)))%nat) members →
  (members_size members ≤ 1 + length (chars (dumps_members members)))%nat.
Proof.
  induction 1 as [|[k v] members Hv _ IH]; [unfold members_size; simpl; lia|].
  simpl in Hv.
  destruct members as [|[k' v'] members].
  - change (dumps_members [(k, v)]) with (encode_str k +:+ ": " +:+ dumps v).
    rewrite !chars_app, !length_app. unfold members_size. simpl. lia.
  - change (dumps_members ((k, v) :: (k', v') :: members))
      with (encode_str k +:+ ": " +:+ dumps v +:+ ", "
            +:+ dumps_members ((k', v') :: members)).
    rewrite !chars_app, !length_app.
    unfold members_size in *. simpl in *. lia.
Qed.

Lemma dumps_nonempty (j : json) : (1 ≤ length (chars (dumps j)))%nat.
Proof. destruct (dumps_head j) as [c [r [-> _]]]. simpl. lia. Qed.

Lemma dumps_length (j : json) : (json_size j ≤ length (chars (dumps j)))%nat.
Proof.
  induction j as [|b|n|s|items IH|members IH] using json_ind';
    try apply dumps_nonempty.
  - rewrite dumps_arr, !chars_app, !length_app.
    pose proof (items_length items IH). simpl.
    fold (items_size items). lia.
  - rewrite dumps_obj, !chars_app, !length_app.
    pose proof (members_length members IH). simpl.
    fold (members_size members). lia.
Qed.

(** Whatever the value, the text [dumps] writes is read back as the value
    a Python [dict] built from it holds. *)
Lemma loads_dumps_canon (j : json) : loads (dumps j) = Some (canon j).
Proof.
  unfold loads.
  pose proof (read_value_dumps j) as Hread.
  specialize (Hread (2 * length (chars (dumps j)) + 2)%nat [] ).
  rewrite app_nil_r in Hread. rewrite Hread; [done| |done].
  pose proof (dumps_length j). lia.
Qed.

(** X1: the text [json.dumps] writes for a value whose objects have
    distinct keys, as [post_drinks] and [edit_drink] store it for the
    submitted recipe, is read back by [json.loads] as that value. *)
Theorem loads_dumps (j : json) :
  wf_json j = true → loads (dumps j) = Some j.
Proof. intros Hwf. by rewrite loads_dumps_canon, canon_wf. Qed.

End RoundTrip.

(** * Further properties of the controllers *)

Section More.

Variable werkzeug_description : Z → string.
Variable auth_description : auth_kind → string.
Variable header_status : Z.

Local Abbreviation serve :=
  (full_dispatch werkzeug_description auth_description header_status).
Local Abbreviation abort_with code :=
  (Raise (HTTPException code (werkzeug_description code))).
Local Abbreviation unprocessable :=
  (not_processable_error (werkzeug_description 422)).
Local Abbreviation internal_error :=
  (server_error (werkzeug_description 500)).

Lemma requires_auth_authorized {A} (permission : string) (f : payload → M A)
    (a : authorization) :
  authorized permission a = true →
  ∃ p, requires_auth auth_description header_status permission f a = f p.
Proof.
  destruct a as [| |p]; try discriminate. unfold authorized, grants.
  simpl. destruct (permissions p); [|discriminate]. intros ->. by exists p.
Qed.

Lemma requires_auth_unauthorized {A} (permission : string) (f : payload → M A)
    (a : authorization) (t : gmap Z row) :
  authorized permission a = false →
  requires_auth auth_description header_status permission f a t
  = (Raise (AuthErrorExn
              (auth_error auth_description header_status (failure_kind a))), t).
Proof.
  destruct a as [| |p]; try reflexivity. unfold authorized, grants.
  simpl. destruct (permissions p); [|reflexivity]. by intros ->.
Qed.

Lemma Drink_long_dumps (i : Z) (ttl v : json) :
  Drink_long {| id := i; title := ttl; recipe := Json.dumps v |}
  = Return (JObj [("id"%string, JNum i); ("title"%string, ttl);
                  ("recipe"%string, canon v)]).
Proof. unfold Drink_long. simpl. by rewrite loads_dumps_canon. Qed.

Lemma post_drinks_run (ok : bool) (b : json) (p : payload) (t : gmap Z row) :
  post_drinks werkzeug_description ok b p t
  = match b with
    | JObj d =>
        if ok then
          (Return (jsonify [("success"%string, JBool true);
                            ("drinks"%string,
                             JArr [long_entry (next_id t) (posted_row d)
                                     (canon (dict_get "recipe" JNull d))])] 200),
           <[next_id t := posted_row d]> t)
        else (abort_with 422, t)
    | _ => (abort_with 422, t)
    end.
Proof.
  unfold post_drinks, except_BaseException, bind, lift, insert, py_get.
  destruct b as [| | | | |d]; try reflexivity.
  destruct ok; [|reflexivity].
  cbn [id title recipe]. by rewrite Drink_long_dumps.
Qed.

Lemma deleteDrinks_existing (ok : bool) (i : Z) (p : payload) (t : gmap Z row)
    (r : row) :
  t !! i = Some r →
  deleteDrinks werkzeug_description ok i p t
  = if ok then
      (Return (jsonify [("success"%string, JBool true);
                        ("delete"%string, JNum i)] 200), base.delete i t)
    else (abort_with 422, t).
Proof.
  intros Hi. unfold deleteDrinks, bind, one_or_none, except_Exception, delete.
  rewrite Hi. by destruct ok.
Qed.


Lemma wf_dict_get (k : string) (d : pydict) :
  wf_json (JObj d) = true → wf_json (dict_get k JNull d) = true.
Proof.
  simpl. intros [_ Hwf]%andb_true_iff. unfold dict_get.
  induction d as [|[k' v] d IH]; simpl in *; [done|].
  apply andb_true_iff in Hwf as [Hv Hd].
  destruct (String.eqb k k'); [done|]. by apply IH.
Qed.

Lemma Drink_long_partial_update (d : pydict) (i : Z) (r : row) :
  Drink_long (row_Drink (i, partial_update d r))
  = if dict_has "recipe" d
    then Return (long_entry i (partial_update d r)
                   (canon (dict_get "recipe" JNull d)))
    else match Json.loads (row_recipe r) with
         | Some v => Return (long_entry i (partial_update d r) v)
         | None => Raise JSONDecodeError
         end.
Proof.
  unfold partial_update, row_Drink, long_entry. simpl.
  destruct (dict_has "recipe" d).
  - destruct (dict_has "title" d); by rewrite Drink_long_dumps.
  - unfold Drink_long. simpl. by destruct (Json.loads (row_recipe r)).
Qed.

(** *** What each route answers and leaves *)

Lemma unauthorized_outcome (ok : bool) (req : request) (t : gmap Z row)
    (permission : string) :
  required_permission (target req) = Some permission →
  authorized permission (bearer req) = false →
  serve ok req t
  = (authentification_error
       (auth_error auth_description header_status (failure_kind (bearer req))),
     t).
Proof.
  destruct req as [r a b]. cbn [target bearer]. intros Hr Ha.
  unfold full_dispatch, dispatch_request. cbn [target bearer get_json].
  destruct r; cbn in Hr; try discriminate; injection Hr as <-;
    by rewrite requires_auth_unauthorized.
Qed.

Lemma drinks_outcome (ok : bool) (a : authorization) (b : json)
    (t : gmap Z row) :
  serve ok {| target := GET_drinks; bearer := a; get_json := b |} t
  = (match comprehension Drink_short (order_by_id t) with
     | Return short_drinks =>
         if (length short_drinks =? 0)%nat then internal_error
         else jsonify [("success"%string, JBool true);
                       ("drinks"%string, JArr short_drinks)] 200
     | Raise _ => internal_error
     end, t).
Proof.
  unfold full_dispatch, dispatch_request. cbn [target]. rewrite getDrinks_run.
  destruct (comprehension _ _) as [l|]; [|done].
  by destruct (length l =? 0)%nat.
Qed.

Lemma detail_outcome (ok : bool) (a : authorization) (b : json)
    (t : gmap Z row) :
  authorized "get:drinks-detail" a = true →
  serve ok {| target := GET_drinks_detail; bearer := a; get_json := b |} t
  = (match comprehension Drink_long (order_by_id t) with
     | Return long_drinks =>
         if (length long_drinks =? 0)%nat then internal_error
         else jsonify [("success"%string, JBool true);
                       ("drinks"%string, JArr long_drinks)] 200
     | Raise _ => internal_error
     end, t).
Proof.
  intros Ha. unfold full_dispatch, dispatch_request. cbn [target bearer].
  destruct (requires_auth_authorized "get:drinks-detail"
              (getDrinksDetail werkzeug_description) a Ha) as [p ->].
  rewrite getDrinksDetail_run.
  destruct (comprehension _ _) as [l|]; [|done].
  by destruct (length l =? 0)%nat.
Qed.

Lemma post_outcome (ok : bool) (a : authorization) (b : json)
    (t : gmap Z row) :
  authorized "post:drinks" a = true →
  serve ok {| target := POST_drinks; bearer := a; get_json := b |} t
  = match b with
    | JObj d =>
        if ok then
          (jsonify [("success"%string, JBool true);
                    ("drinks"%string,
                     JArr [long_entry (next_id t) (posted_row d)
                             (canon (dict_get "recipe" JNull d))])] 200,
           <[next_id t := posted_row d]> t)
        else (unprocessable, t)
    | _ => (unprocessable, t)
    end.
Proof.
  intros Ha. unfold full_dispatch, dispatch_request.
  cbn [target bearer get_json].
  destruct (requires_auth_authorized "post:drinks"
              (post_drinks werkzeug_description ok b) a Ha) as [p ->].
  rewrite post_drinks_run. destruct b; try done. by destruct ok.
Qed.

Lemma patch_outcome (ok : bool) (a : authorization) (b : json) (i : Z)
    (t : gmap Z row) :
  authorized "patch:drinks" a = true →
  serve ok {| target := PATCH_drinks i; bearer := a; get_json := b |} t
  = match b with
    | JObj d =>
        match t !! i with
        | Some r =>
            if ok then
              (match Drink_long (row_Drink (i, partial_update d r)) with
               | Return format_drink =>
                   jsonify [("success"%string, JBool true);
                            ("drinks"%string, JArr [format_drink])] 200
               | Raise _ => unprocessable
               end, <[i := partial_update d r]> t)
            else (unprocessable, t)
        | None => (unprocessable, t)
        end
    | _ => (internal_error, t)
    end.
Proof.
  intros Ha. unfold full_dispatch, dispatch_request.
  cbn [target bearer get_json].
  destruct (requires_auth_authorized "patch:drinks"
              (edit_drink werkzeug_description ok b i) a Ha) as [p ->].
  destruct b as [| | | | |d];
    try (by rewrite edit_drink_not_a_dict by (intros ?; discriminate)).
  destruct (t !! i) as [r|] eqn:Hi.
  - rewrite (edit_drink_existing _ _ _ _ _ _ _ Hi). destruct ok; [|done].
    by destruct (Drink_long _).
  - by rewrite edit_drink_missing.
Qed.

Lemma delete_outcome (ok : bool) (a : authorization) (b : json) (i : Z)
    (t : gmap Z row) :
  authorized "delete:drinks" a = true →
  serve ok {| target := DELETE_drinks i; bearer := a; get_json := b |} t
  = match t !! i with
    | Some _ =>
        if ok then
          (jsonify [("success"%string, JBool true);
                    ("delete"%string, JNum i)] 200, base.delete i t)
        else (unprocessable, t)
    | None => (unprocessable, t)
    end.
Proof.
  intros Ha. unfold full_dispatch, dispatch_request.
  cbn [target bearer get_json].
  destruct (requires_auth_authorized "delete:drinks"
              (deleteDrinks werkzeug_description ok i) a Ha) as [p ->].
  destruct (t !! i) as [r|] eqn:Hi.
  - rewrite (deleteDrinks_existing _ _ _ _ _ Hi). by destruct ok.
  - by rewrite deleteDrinks_missing.
Qed.

(** *** Creating *)

(** X2: POST /drinks succeeds exactly when the token grants post:drinks, the
    body is a JSON object and the store accepts the insert.  It then adds
    the row built from the body under an identifier no row had; otherwise
    it leaves the table as it was. *)
Theorem post_succeeds_exactly (ok : bool) (a : authorization) (b : json)
    (t : gmap Z row) :
  let answer :=
    serve ok {| target := POST_drinks; bearer := a; get_json := b |} t in
  succeeded answer.1 = authorized "post:drinks" a && is_object b && ok
  ∧ (succeeded answer.1 = false → answer.2 = t)
  ∧ (succeeded answer.1 = true →
       ∃ d, b = JObj d ∧ t !! next_id t = None
            ∧ answer.2 = <[next_id t := posted_row d]> t).
Proof.
  destruct (authorized "post:drinks" a) eqn:Ha; cbv zeta.
  - rewrite post_outcome by done.
    destruct b as [| | | | |d]; try (by repeat split).
    destruct ok; [|by repeat split].
    repeat split; [done|]. intros _. exists d.
    split; [done|]. split; [apply next_id_fresh|done].
  - rewrite (unauthorized_outcome _ _ _ "post:drinks") by done.
    by repeat split.
Qed.

(** X3: POST /drinks with a body that is not a JSON object (null, an array,
    a string, a number, a boolean) is answered 422, the [body.get] being
    inside the [try]; nothing is stored. *)
Theorem post_not_an_object (ok : bool) (a : authorization) (b : json)
    (t : gmap Z row) :
  authorized "post:drinks" a = true → is_object b = false →
  serve ok {| target := POST_drinks; bearer := a; get_json := b |} t
  = (unprocessable, t).
Proof. intros Ha Hb. rewrite post_outcome by done. by destruct b. Qed.

(** X4: POST /drinks with an object body whose objects have distinct keys,
    accepted by the store, is answered 200 with exactly one entry: the new
    id, the title of the body (null when absent) and the recipe of the body
    as submitted (null when absent). *)
Theorem post_object_accepted (a : authorization) (d : pydict) (t : gmap Z row) :
  authorized "post:drinks" a = true → wf_json (JObj d) = true →
  serve true {| target := POST_drinks; bearer := a; get_json := JObj d |} t
  = (jsonify [("success"%string, JBool true);
              ("drinks"%string,
               JArr [JObj [("id"%string, JNum (next_id t));
                           ("title"%string, dict_get "title" JNull d);
                           ("recipe"%string, dict_get "recipe" JNull d)]])] 200,
     <[next_id t := posted_row d]> t).
Proof.
  intros Ha Hwf. rewrite post_outcome by done.
  unfold long_entry, posted_row. simpl.
  by rewrite (canon_wf _ (wf_dict_get "recipe" d Hwf)).
Qed.

(** *** Updating *)

(** X5: PATCH /drinks/{id} with a body that is not a JSON object is answered
    500, whether the id is in the table or not: the [body.get] is before
    the [try].  Nothing is stored. *)
Theorem patch_not_an_object (ok : bool) (a : authorization) (b : json)
    (i : Z) (t : gmap Z row) :
  authorized "patch:drinks" a = true → is_object b = false →
  serve ok {| target := PATCH_drinks i; bearer := a; get_json := b |} t
  = (internal_error, t).
Proof. intros Ha Hb. rewrite patch_outcome by done. by destruct b. Qed.

(** X6: on a table whose recipe texts are JSON texts, PATCH /drinks/{id}
    succeeds exactly when the token grants patch:drinks, the body is a JSON
    object, the id is in the table and the store accepts the update.  It
    then leaves the addressed row partially updated; otherwise it leaves
    the table as it was. *)
Theorem patch_succeeds_exactly (ok : bool) (a : authorization) (b : json)
    (i : Z) (t : gmap Z row) :
  decodable t →
  let answer :=
    serve ok {| target := PATCH_drinks i; bearer := a; get_json := b |} t in
  succeeded answer.1
  = authorized "patch:drinks" a && is_object b
    && bool_decide (is_Some (t !! i)) && ok
  ∧ (succeeded answer.1 = false → answer.2 = t)
  ∧ (succeeded answer.1 = true →
       ∃ d r, b = JObj d ∧ t !! i = Some r
              ∧ answer.2 = <[i := partial_update d r]> t).
Proof.
  intros Hdec. destruct (authorized "patch:drinks" a) eqn:Ha; cbv zeta.
  - rewrite patch_outcome by done.
    destruct b as [| | | | |d]; try (by repeat split).
    destruct (t !! i) as [r|] eqn:Hi; [|by repeat split].
    destruct ok; [|by repeat split].
    rewrite Drink_long_partial_update.
    destruct (dict_has "recipe" d).
    + repeat split; [done|]. intros _. by exists d, r.
    + destruct (Hdec i r Hi) as [v ->].
      repeat split; [done|]. intros _. by exists d, r.
  - rewrite (unauthorized_outcome _ _ _ "patch:drinks") by done.
    by repeat split.
Qed.

(** X7: an accepted PATCH on an existing row, with an object body whose
    objects have distinct keys, is answered 200 with exactly one entry: the
    id, the submitted title or else the stored one, and the submitted recipe
    or else the stored recipe decoded. *)
Theorem patch_object_accepted (a : authorization) (d : pydict) (i : Z)
    (t : gmap Z row) (r : row) (stored : json) :
  authorized "patch:drinks" a = true → t !! i = Some r →
  wf_json (JObj d) = true →
  (dict_has "recipe" d = false → Json.loads (row_recipe r) = Some stored) →
  serve true {| target := PATCH_drinks i; bearer := a; get_json := JObj d |} t
  = (jsonify [("success"%string, JBool true);
              ("drinks"%string,
               JArr [JObj [("id"%string, JNum i);
                           ("title"%string,
                            if dict_has "title" d
                            then dict_get "title" JNull d else row_title r);
                           ("recipe"%string,
                            if dict_has "recipe" d
                            then dict_get "recipe" JNull d else stored)]])]
       200,
     <[i := partial_update d r]> t).
Proof.
  intros Ha Hi Hwf Hstored. rewrite patch_outcome, Hi by done.
  rewrite Drink_long_partial_update. unfold long_entry, partial_update. simpl.
  destruct (dict_has "recipe" d).
  - by rewrite (canon_wf _ (wf_dict_get "recipe" d Hwf)).
  - by rewrite Hstored.
Qed.

(** X8: PATCH is idempotent: served a second time against the table the
    first left, with the same verdict of the store, the same request gets
    the same answer and leaves the same table. *)
Theorem patch_idempotent (ok : bool) (a : authorization) (b : json) (i : Z)
    (t : gmap Z row) :
  let req := {| target := PATCH_drinks i; bearer := a; get_json := b |} in
  serve ok req (serve ok req t).2 = serve ok req t.
Proof.
  cbv zeta. destruct (authorized "patch:drinks" a) eqn:Ha.
  - rewrite !patch_outcome by done.
    destruct b as [| | | | |d]; [done..|].
    destruct (t !! i) as [r|] eqn:Hi; cbn [snd]; [|by rewrite Hi].
    destruct ok; cbn [snd]; [|by rewrite Hi].
    rewrite lookup_insert_eq.
    assert (partial_update d (partial_update d r) = partial_update d r) as ->.
    { unfold partial_update. simpl.
      by destruct (dict_has "title" d), (dict_has "recipe" d). }
    by rewrite insert_insert_eq.
  - by rewrite !(unauthorized_outcome _ _ _ "patch:drinks") by done.
Qed.

(** *** Deleting *)

(** X9: DELETE /drinks/{id} succeeds exactly when the token grants
    delete:drinks, the id is in the table and the store accepts the delete.
    It then removes the row; otherwise it leaves the table as it was, and a
    request with a granting token that does not succeed is answered 422. *)
Theorem delete_succeeds_exactly (ok : bool) (a : authorization) (b : json)
    (i : Z) (t : gmap Z row) :
  let answer :=
    serve ok {| target := DELETE_drinks i; bearer := a; get_json := b |} t in
  succeeded answer.1
  = authorized "delete:drinks" a && bool_decide (is_Some (t !! i)) && ok
  ∧ (succeeded answer.1 = false → answer.2 = t)
  ∧ (succeeded answer.1 = true → answer.2 = base.delete i t)
  ∧ (authorized "delete:drinks" a = true → succeeded answer.1 = false →
       answer.1 = unprocessable).
Proof.
  destruct (authorized "delete:drinks" a) eqn:Ha; cbv zeta.
  - rewrite delete_outcome by done.
    destruct (t !! i) as [r|] eqn:Hi; [|by repeat split].
    destruct ok; by repeat split.
  - rewrite (unauthorized_outcome _ _ _ "delete:drinks") by done.
    by repeat split.
Qed.

(** X10: a DELETE repeated after an accepted DELETE of the same id is
    answered 422 and changes nothing more. *)
Theorem delete_twice (ok : bool) (a : authorization) (b : json) (i : Z)
    (t : gmap Z row) (r : row) :
  authorized "delete:drinks" a = true → t !! i = Some r →
  let req := {| target := DELETE_drinks i; bearer := a; get_json := b |} in
  serve ok req (serve true req t).2 = (unprocessable, base.delete i t).
Proof.
  intros Ha Hi. cbv zeta. rewrite !delete_outcome by done.
  rewrite Hi. cbn [snd]. by rewrite lookup_delete_eq.
Qed.

(** X11: deleting the drink a POST has just created restores the table the
    POST found. *)
Theorem post_then_delete (a a' : authorization) (d : pydict) (b : json)
    (t : gmap Z row) :
  authorized "post:drinks" a = true → authorized "delete:drinks" a' = true →
  let created :=
    serve true {| target := POST_drinks; bearer := a; get_json := JObj d |} t in
  serve true {| target := DELETE_drinks (next_id t); bearer := a';
                get_json := b |} created.2
  = (jsonify [("success"%string, JBool true);
              ("delete"%string, JNum (next_id t))] 200, t).
Proof.
  intros Ha Ha'. cbv zeta. rewrite post_outcome, delete_outcome by done.
  cbn [snd]. rewrite lookup_insert_eq.
  by rewrite delete_insert_id by apply next_id_fresh.
Qed.

(** *** Listing *)

Lemma long_listing (ds : list Drink) :
  Forall (λ d, is_Some (Json.loads (recipe d))) ds →
  ∃ longs,
    comprehension Drink_long ds = Return longs
    ∧ Forall2 (λ d l, ∃ v, Json.loads (recipe d) = Some v
                          ∧ l = long_entry (id d) (Drink_row d) v) ds longs.
Proof.
  induction 1 as [|d ds [v Hv] _ [longs [Hlongs Hall]]]; simpl.
  - exists []. by split; [|constructor].
  - unfold Drink_long at 1. rewrite Hv, Hlongs. eexists. split; [done|].
    constructor; [|done]. by exists v.
Qed.

Lemma decodable_order_by_id (t : gmap Z row) :
  decodable t → Forall (λ d, is_Some (Json.loads (recipe d))) (order_by_id t).
Proof.
  intros Hdec. apply Forall_forall. intros d Hd.
  apply elem_of_order_by_id in Hd. apply (Hdec _ _ Hd).
Qed.

Lemma detail_rows (ok : bool) (a : authorization) (b : json)
    (t : gmap Z row) :
  authorized "get:drinks-detail" a = true → decodable t → t ≠ ∅ →
  ∃ longs ids,
    serve ok {| target := GET_drinks_detail; bearer := a; get_json := b |} t
    = (jsonify [("success"%string, JBool true);
                ("drinks"%string, JArr longs)] 200, t)
    ∧ length longs = size t
    ∧ entry_id <$> longs = (λ i, Some (JNum i)) <$> ids
    ∧ StronglySorted Z.lt ids
    ∧ (∀ i, i ∈ ids ↔ is_Some (t !! i))
    ∧ (∀ i r v, t !! i = Some r → Json.loads (row_recipe r) = Some v →
         long_entry i r v ∈ longs).
Proof.
  intros Ha Hdec Hne.
  destruct (long_listing _ (decodable_order_by_id t Hdec))
    as [longs [Hlongs Hall]].
  assert (length longs = size t) as Hlen.
  { by rewrite <- (Forall2_length _ _ _ Hall), order_by_id_length. }
  assert (size t ≠ 0%nat) as Hsize by (by apply map_size_non_empty_iff).
  exists longs, (id <$> order_by_id t).
  split; [|split; [done|split; [|split; [|split]]]].
  - rewrite detail_outcome, Hlongs by done.
    destruct (Nat.eqb_spec (length longs) 0); [lia|done].
  - clear Hlongs Hlen. induction Hall as [|d l ds ls [v [_ ->]] _ IH]; [done|].
    rewrite !fmap_cons. by rewrite IH.
  - apply order_by_id_ascending.
  - apply elem_of_order_by_id_ids.
  - intros i r v Hi Hv.
    assert (row_Drink (i, r) ∈ order_by_id t) as Hin.
    { apply elem_of_order_by_id. simpl. rewrite Hi. by destruct r. }
    apply list_elem_of_lookup in Hin as [n Hn].
    destruct (Forall2_lookup_l _ _ _ _ _ Hall Hn) as [l [Hl [v' [Hv' ->]]]].
    simpl in Hv'. rewrite Hv in Hv'. injection Hv' as <-.
    apply list_elem_of_lookup. exists n. rewrite Hl.
    unfold long_entry. simpl. by destruct r.
Qed.

(** X12: on a non-empty table whose recipe texts are JSON texts,
    GET /drinks-detail with a token granting get:drinks-detail is answered
    200 with one long-form entry per row, in ascending id order, every row
    being listed with its title and its recipe decoded; the table is left
    as it was. *)
Theorem detail_listing (ok : bool) (a : authorization) (b : json)
    (t : gmap Z row) :
  authorized "get:drinks-detail" a = true → decodable t → t ≠ ∅ →
  ∃ longs ids,
    serve ok {| target := GET_drinks_detail; bearer := a; get_json := b |} t
    = (jsonify [("success"%string, JBool true);
                ("drinks"%string, JArr longs)] 200, t)
    ∧ length longs = size t
    ∧ entry_id <$> longs = (λ i, Some (JNum i)) <$> ids
    ∧ StronglySorted Z.lt ids
    ∧ (∀ i, i ∈ ids ↔ is_Some (t !! i))
    ∧ (∀ i r v, t !! i = Some r → Json.loads (row_recipe r) = Some v →
         long_entry i r v ∈ longs).
Proof. apply detail_rows. Qed.






(** *** All routes *)

Lemma decodable_insert (t : gmap Z row) (i : Z) (r : row) :
  decodable t → is_Some (Json.loads (row_recipe r)) →
  decodable (<[i := r]> t).
Proof.
  intros Hdec Hr j r' [[<- <-]|[_ Hj]]%lookup_insert_Some; [done|].
  by apply (Hdec j).
Qed.

Lemma decodable_posted (t : gmap Z row) (i : Z) (d : pydict) :
  decodable t → decodable (<[i := posted_row d]> t).
Proof.
  intros Hdec. apply decodable_insert; [done|].
  simpl. rewrite loads_dumps_canon. eauto.
Qed.

Lemma decodable_partial_update (t : gmap Z row) (i : Z) (d : pydict) (r : row) :
  decodable t → t !! i = Some r → decodable (<[i := partial_update d r]> t).
Proof.
  intros Hdec Hi. apply decodable_insert; [done|].
  unfold partial_update. simpl. destruct (dict_has "recipe" d).
  - rewrite loads_dumps_canon. eauto.
  - by apply (Hdec i).
Qed.

(** X14: every request leaves a table whose recipe texts are JSON texts a
    table whose recipe texts are JSON texts; the empty table is one. *)
Theorem requests_keep_recipes_decodable (ok : bool) (req : request)
    (t : gmap Z row) :
  decodable ∅ ∧ (decodable t → decodable (serve ok req t).2).
Proof.
  split; [by intros i r Hi|].
  intros Hdec. destruct req as [r a b].
  destruct (required_permission r) as [permission|] eqn:Hr.
  - destruct (authorized permission a) eqn:Ha.
    + destruct r as [| | |i|i]; cbn in Hr; try discriminate;
        injection Hr as <-.
      * by rewrite detail_outcome.
      * rewrite post_outcome by done.
        destruct b as [| | | | |d]; try done.
        destruct ok; [|done]. by apply decodable_posted.
      * rewrite patch_outcome by done.
        destruct b as [| | | | |d]; try done.
        destruct (t !! i) as [r|] eqn:Hi; [|done].
        destruct ok; [|done]. by apply decodable_partial_update.
      * rewrite delete_outcome by done.
        destruct (t !! i) as [r|] eqn:Hi; [|done].
        destruct ok; [|done]. cbn [snd].
        intros j r' [_ Hj]%lookup_delete_Some. by apply (Hdec j).
    + by rewrite (unauthorized_outcome _ _ _ permission).
  - destruct r; try discriminate. by rewrite drinks_outcome.
Qed.

(** X15: what a request may touch.  The two GET routes never write; POST
    adds at most one row, under an identifier no row had; PATCH neither
    adds nor removes a row and touches no row but the addressed one; DELETE
    removes the addressed row or nothing. *)
Theorem request_frame (ok : bool) (req : request) (t : gmap Z row) :
  let t' := (serve ok req t).2 in
  match target req with
  | GET_drinks | GET_drinks_detail => t' = t
  | POST_drinks =>
      t' = t ∨ ∃ r, t !! next_id t = None ∧ t' = <[next_id t := r]> t
  | PATCH_drinks i => dom t' = dom t ∧ ∀ j, j ≠ i → t' !! j = t !! j
  | DELETE_drinks i => t' = t ∨ t' = base.delete i t
  end.
Proof.
  cbv zeta. destruct req as [r a b]. cbn [target].
  destruct (required_permission r) as [permission|] eqn:Hr.
  - destruct (authorized permission a) eqn:Ha.
    + destruct r as [| | |i|i]; cbn in Hr; try discriminate;
        injection Hr as <-.
      * by rewrite detail_outcome.
      * rewrite post_outcome by done.
        destruct b as [| | | | |d]; try (by left).
        destruct ok; [|by left]. right. eexists.
        split; [apply next_id_fresh|done].
      * rewrite patch_outcome by done.
        destruct b as [| | | | |d]; try done.
        destruct (t !! i) as [r|] eqn:Hi; [|done].
        destruct ok; [|done]. cbn [snd]. split.
        -- apply dom_insert_lookup_L. eauto.
        -- intros j Hj. by rewrite lookup_insert_ne.
      * rewrite delete_outcome by done.
        destruct (t !! i) as [r|] eqn:Hi; [|by left].
        destruct ok; [by right|by left].
    + rewrite (unauthorized_outcome _ _ _ permission) by done.
      destruct r; try done; by left.
  - destruct r; try discriminate. by rewrite drinks_outcome.
Qed.

Lemma enveloped_success (fields : pydict) :
  dict_lookup "error" fields = None →
  enveloped (jsonify (("success"%string, JBool true) :: fields) 200).
Proof. intros Hf. eexists. split; [done|]. left. by repeat split. Qed.

Lemma enveloped_handlers :
  enveloped internal_error ∧ enveloped unprocessable
  ∧ ∀ e, enveloped (authentification_error e).
Proof.
  repeat split; try intros e; (eexists; split; [done|]; right;
    repeat split; eauto).
Qed.

(** X16: every response of the application is a JSON object with a boolean
    [success] field; when it is true the status is 200 and there is no
    [error] field, and when it is false the [error] field echoes the status
    and the [message] field is a string. *)
Theorem responses_are_enveloped (ok : bool) (req : request) (t : gmap Z row) :
  enveloped (serve ok req t).1.
Proof.
  destruct enveloped_handlers as [H500 [H422 Hauth]].
  destruct req as [r a b].
  destruct (required_permission r) as [permission|] eqn:Hr.
  - destruct (authorized permission a) eqn:Ha.
    + destruct r as [| | |i|i]; cbn in Hr; try discriminate;
        injection Hr as <-.
      * rewrite detail_outcome by done. cbn [fst].
        destruct (comprehension _ _) as [l|]; [|done].
        destruct (length l =? 0)%nat; [done|]. by apply enveloped_success.
      * rewrite post_outcome by done.
        destruct b as [| | | | |d]; try done.
        destruct ok; [|done]. by apply enveloped_success.
      * rewrite patch_outcome by done.
        destruct b as [| | | | |d]; try done.
        destruct (t !! i) as [r|] eqn:Hi; [|done].
        destruct ok; [|done]. cbn [fst].
        destruct (Drink_long _); [|done]. by apply enveloped_success.
      * rewrite delete_outcome by done.
        destruct (t !! i) as [r|] eqn:Hi; [|done].
        destruct ok; [|done]. by apply enveloped_success.
    + rewrite (unauthorized_outcome _ _ _ permission) by done. apply Hauth.
  - destruct r; try discriminate. rewrite drinks_outcome. cbn [fst].
    destruct (comprehension _ _) as [l|]; [|done].
    destruct (length l =? 0)%nat; [done|]. by apply enveloped_success.
Qed.

(** X17: a drink created by an accepted POST on a table whose recipe texts
    are JSON texts is listed by the next GET /drinks-detail, as the entry
    the POST answered. *)
Theorem created_drink_is_listed (ok : bool) (a a' : authorization)
    (d : pydict) (b : json) (t : gmap Z row) :
  authorized "post:drinks" a = true →
  authorized "get:drinks-detail" a' = true → decodable t →
  let created :=
    serve true {| target := POST_drinks; bearer := a; get_json := JObj d |} t in
  ∃ entry longs,
    created.1 = jsonify [("success"%string, JBool true);
                         ("drinks"%string, JArr [entry])] 200
    ∧ serve ok {| target := GET_drinks_detail; bearer := a'; get_json := b |}
        created.2
      = (jsonify [("success"%string, JBool true);
                  ("drinks"%string, JArr longs)] 200, created.2)
    ∧ entry ∈ longs.
Proof.
  intros Ha Ha' Hdec. cbv zeta. rewrite post_outcome by done. cbn [fst snd].
  destruct (detail_rows ok a' b (<[next_id t := posted_row d]> t) Ha')
    as [longs [ids [Hlist [_ [_ [_ [_ Hrows]]]]]]].
  { by apply decodable_posted. }
  { apply insert_non_empty. }
  eexists _, longs. split; [done|]. split; [done|].
  apply (Hrows (next_id t)); [apply lookup_insert_eq|].
  simpl. apply loads_dumps_canon.
Qed.

(** X18: authorization comes first.  On each of the four protected routes
    a request whose header is not a verified token granting the route's
    permission is answered with the [AuthError] of its kind of failure,
    rendered by [authentification_error], whatever the body, the id, the
    table and the store; the handler is not run and the table is left as it
    was. *)
Theorem authorization_comes_first (ok : bool) (req : request) (t : gmap Z row)
    (permission : string) :
  required_permission (target req) = Some permission →
  authorized permission (bearer req) = false →
  serve ok req t
  = (jsonify [("success"%string, JBool false);
              ("error"%string,
               JNum (status_code (auth_error auth_description header_status
                                    (failure_kind (bearer req)))));
              ("message"%string,
               JStr (auth_description (failure_kind (bearer req))))]
       (status_code (auth_error auth_description header_status
                       (failure_kind (bearer req)))), t).
Proof. intros Hr Ha. by rewrite (unauthorized_outcome _ _ _ permission). Qed.

End More.

(** * Further concrete runs *)

Lemma water_table_decodable : decodable water_table.
Proof.
  unfold water_table. intros i r [_ <-]%lookup_singleton_Some.
  exists water_recipe. reflexivity.
Defined.

(** The example body is read back from its text. *)
Lemma loads_dumps_water_body :
  wf_json water_body = true
  ∧ Json.loads (Json.dumps water_body) = Some water_body.
Proof. split; [reflexivity|]. exact (loads_dumps water_body eq_refl). Defined.

(** POST /drinks with the body [[]] is answered 422. *)
Lemma post_an_array :
  authorized "post:drinks" (token ["post:drinks"%string]) = true
  ∧ is_object (JArr []) = false
  ∧ run true {| target := POST_drinks; bearer := token ["post:drinks"%string];
                get_json := JArr [] |} water_table
    = (not_processable_error (sample_description 422), water_table).
Proof.
  split; [reflexivity|]. split; [reflexivity|].
  exact (post_not_an_object sample_description sample_auth_description 401
           true (token ["post:drinks"%string]) (JArr []) water_table
           eq_refl eq_refl).
Defined.

(** POST /drinks with the body [{title: Milk}] on the table with drink 1
    creates drink 2, with a null recipe. *)
Lemma post_milk :
  authorized "post:drinks" (token ["post:drinks"%string]) = true
  ∧ wf_json (JObj [("title"%string, JStr "Milk")]) = true
  ∧ (run true {| target := POST_drinks; bearer := token ["post:drinks"%string];
                 get_json := JObj [("title"%string, JStr "Milk")] |}
       water_table).1
    = jsonify [("success"%string, JBool true);
               ("drinks"%string,
                JArr [JObj [("id"%string, JNum 2);
                            ("title"%string, JStr "Milk");
                            ("recipe"%string, JNull)]])] 200.
Proof.
  split; [reflexivity|]. split; [reflexivity|].
  unfold run.
  rewrite (post_object_accepted sample_description sample_auth_description
             401 (token ["post:drinks"%string])
             [("title"%string, JStr "Milk")] water_table eq_refl eq_refl).
  reflexivity.
Defined.

(** PATCH /drinks/1 with the body [null] is answered 500. *)
Lemma patch_null_body :
  authorized "patch:drinks" (token ["patch:drinks"%string]) = true
  ∧ is_object JNull = false
  ∧ run true {| target := PATCH_drinks 1;
                bearer := token ["patch:drinks"%string];
                get_json := JNull |} water_table
    = (server_error (sample_description 500), water_table).
Proof.
  split; [reflexivity|]. split; [reflexivity|].
  exact (patch_not_an_object sample_description sample_auth_description 401
           true (token ["patch:drinks"%string]) JNull 1 water_table
           eq_refl eq_refl).
Defined.

(** PATCH /drinks/1 with the body [{title: Sparkling Water}] succeeds;
    PATCH /drinks/2 does not. *)
Lemma patch_water_succeeds :
  decodable water_table
  ∧ succeeded (run true {| target := PATCH_drinks 1;
                           bearer := token ["patch:drinks"%string];
                           get_json :=
                             JObj [("title"%string, JStr "Sparkling Water")] |}
                 water_table).1 = true.
Proof.
  split; [exact water_table_decodable|].
  unfold run.
  rewrite (proj1 (patch_succeeds_exactly sample_description
                    sample_auth_description 401 true
                    (token ["patch:drinks"%string])
                    (JObj [("title"%string, JStr "Sparkling Water")]) 1
                    water_table water_table_decodable)).
  reflexivity.
Defined.

(** The answer to PATCH /drinks/1 with the body [{title: Sparkling Water}]
    shows the new title and the stored recipe. *)
Lemma patch_water_answer :
  authorized "patch:drinks" (token ["patch:drinks"%string]) = true
  ∧ water_table !! 1 = Some water_row
  ∧ wf_json (JObj [("title"%string, JStr "Sparkling Water")]) = true
  ∧ Json.loads (row_recipe water_row) = Some water_recipe
  ∧ (run true {| target := PATCH_drinks 1;
                 bearer := token ["patch:drinks"%string];
                 get_json :=
                   JObj [("title"%string, JStr "Sparkling Water")] |}
       water_table).1
    = jsonify [("success"%string, JBool true);
               ("drinks"%string,
                JArr [JObj [("id"%string, JNum 1);
                            ("title"%string, JStr "Sparkling Water");
                            ("recipe"%string, water_recipe)]])] 200.
Proof.
  split; [reflexivity|]. split; [reflexivity|]. split; [reflexivity|].
  split; [reflexivity|].
  unfold run.
  rewrite (patch_object_accepted sample_description sample_auth_description
             401 (token ["patch:drinks"%string])
             [("title"%string, JStr "Sparkling Water")] 1 water_table
             water_row water_recipe eq_refl eq_refl eq_refl
             (λ _, eq_refl)).
  reflexivity.
Defined.

(** DELETE /drinks/1 twice: the second is answered 422. *)
Lemma delete_water_twice :
  authorized "delete:drinks" (token ["delete:drinks"%string]) = true
  ∧ water_table !! 1 = Some water_row
  ∧ status (run true (without_body (DELETE_drinks 1)
                        (token ["delete:drinks"%string]))
              (run true (without_body (DELETE_drinks 1)
                           (token ["delete:drinks"%string])) water_table).2).1
    = 422.
Proof.
  split; [reflexivity|]. split; [reflexivity|].
  unfold run, without_body.
  rewrite (delete_twice sample_description sample_auth_description 401 true
             (token ["delete:drinks"%string]) JNull 1 water_table water_row
             eq_refl eq_refl).
  reflexivity.
Defined.

(** POST /drinks then DELETE /drinks/2 on the table with drink 1 gives the
    table back. *)
Lemma post_then_delete_water :
  authorized "post:drinks" (token ["post:drinks"%string]) = true
  ∧ authorized "delete:drinks" (token ["delete:drinks"%string]) = true
  ∧ (run true (without_body (DELETE_drinks 2) (token ["delete:drinks"%string]))
       (run true {| target := POST_drinks;
                    bearer := token ["post:drinks"%string];
                    get_json := water_body |} water_table).2).2
    = water_table.
Proof.
  split; [reflexivity|]. split; [reflexivity|].
  exact (f_equal snd
           (post_then_delete sample_description sample_auth_description 401
              (token ["post:drinks"%string]) (token ["delete:drinks"%string])
              [("title"%string, JStr "Water"); ("recipe"%string, water_recipe)]
              JNull water_table eq_refl eq_refl)).
Defined.

(** GET /drinks-detail on the table with drink 1 lists one entry, the long
    form of the drink. *)
Lemma detail_water :
  authorized "get:drinks-detail" (token ["get:drinks-detail"%string]) = true
  ∧ decodable water_table
  ∧ water_table ≠ ∅
  ∧ ∃ longs,
      run true (without_body GET_drinks_detail
                  (token ["get:drinks-detail"%string])) water_table
      = (jsonify [("success"%string, JBool true);
                  ("drinks"%string, JArr longs)] 200, water_table)
      ∧ length longs = 1%nat
      ∧ long_entry 1 water_row water_recipe ∈ longs.
Proof.
  assert (water_table ≠ ∅) as Hne.
  { intros H. apply (f_equal (lookup 1)) in H. discriminate H. }
  split; [reflexivity|]. split; [exact water_table_decodable|].
  split; [exact Hne|].
  destruct (detail_listing sample_description sample_auth_description 401 true
              (token ["get:drinks-detail"%string]) JNull water_table eq_refl
              water_table_decodable Hne)
    as [longs [ids [Hlist [Hlen [_ [_ [_ Hrows]]]]]]].
  exists longs. split; [exact Hlist|]. split; [rewrite Hlen; reflexivity|].
  apply (Hrows 1 water_row water_recipe); reflexivity.
Defined.

(** The drink created on the empty table is listed. *)
Lemma created_water_is_listed :
  authorized "post:drinks" (token ["post:drinks"%string]) = true
  ∧ authorized "get:drinks-detail" (token ["get:drinks-detail"%string]) = true
  ∧ decodable ∅
  ∧ ∃ (entry : json) (longs : list json),
      (run true {| target := POST_drinks;
                   bearer := token ["post:drinks"%string];
                   get_json := water_body |} ∅).1
      = jsonify [("success"%string, JBool true);
                 ("drinks"%string, JArr [entry])] 200
      ∧ (run true (without_body GET_drinks_detail
                     (token ["get:drinks-detail"%string]))
           (run true {| target := POST_drinks;
                        bearer := token ["post:drinks"%string];
                        get_json := water_body |} ∅).2).1
        = jsonify [("success"%string, JBool true);
                   ("drinks"%string, JArr longs)] 200
      ∧ entry ∈ longs.
Proof.
  assert (decodable ∅) as Hdec by (intros i r Hi; discriminate Hi).
  split; [reflexivity|]. split; [reflexivity|]. split; [exact Hdec|].
  destruct (created_drink_is_listed sample_description sample_auth_description
              401 true (token ["post:drinks"%string])
              (token ["get:drinks-detail"%string])
              [("title"%string, JStr "Water"); ("recipe"%string, water_recipe)]
              JNull ∅ eq_refl eq_refl Hdec)
    as [entry [longs [Hentry [Hlist Hin]]]].
  exists entry, longs. split; [exact Hentry|]. split; [|exact Hin].
  exact (f_equal fst Hlist).
Defined.

(** DELETE /drinks/1 with a token the verifier rejects is answered 401 and
    deletes nothing. *)
Lemma delete_with_invalid_token :
  required_permission (DELETE_drinks 1) = Some "delete:drinks"%string
  ∧ authorized "delete:drinks" InvalidToken = false
  ∧ status (run true (without_body (DELETE_drinks 1) InvalidToken)
              water_table).1 = 401
  ∧ (run true (without_body (DELETE_drinks 1) InvalidToken) water_table).2
    = water_table.
Proof.
  split; [reflexivity|]. split; [reflexivity|].
  unfold run.
  rewrite (authorization_comes_first sample_description sample_auth_description
             401 true (without_body (DELETE_drinks 1) InvalidToken)
             water_table "delete:drinks" eq_refl eq_refl).
  split; reflexivity.
Defined.
